(** * pysplit.mapmaker: parameter pre-processing of the map helpers

    A shallow embedding of [traj_scatter], [meteo_contouring],
    [adjust_contourparams], the colorbar helpers ([make_cbar],
    [make_cax_cbar], [edit_cbar]) and [random_colors] of
    [pysplit/mapmaker.py] (Python 2, numpy, matplotlib), and the properties
    of their defaulting, normalisation and level-selection logic.

    Modelling choices, all taken from the source:
    - numbers are rationals ([Q]), as every finite binary64 number is one;
      arithmetic that rounds ([np.linspace]) takes its rounding from the class
      [rounding], of which [binary64] is the instance of IEEE 754 double
      precision; infinities and NaN are not values of the model;
    - a numpy array is its shape and its row-major buffer;
    - a Python exception is a value of [exn]; a call either returns or raises;
    - the rendering backend (Basemap, matplotlib) is an external collaborator:
      a plotting function returns the request it hands to the backend;
    - string objects carry an address, since the source compares them with
      [is]; list objects and matplotlib artists live in a store, since
      [adjust_contourparams] receives them by reference. *)

From Stdlib Require Import QArith Qminmax ZArith Ascii String Lia Lqa.
From Stdlib Require PrimFloat FloatOps SpecFloat Uint63.
From stdpp Require Import base option list strings gmap.

Local Open Scope string_scope.
Local Open Scope list_scope.

(** ** Python: exceptions and results *)

Module Py.

(** The exception classes the modelled code and its libraries can raise. *)
Inductive exn : Type :=
| TypeError
| AttributeError
| KeyError
| ValueError
| IndexError.

Definition exn_name (e : exn) : string :=
  match e with
  | TypeError => "TypeError"
  | AttributeError => "AttributeError"
  | KeyError => "KeyError"
  | ValueError => "ValueError"
  | IndexError => "IndexError"
  end.

Inductive result (A : Type) : Type :=
| Ok (a : A)
| Raise (e : exn).
Arguments Ok {A} a.
Arguments Raise {A} e.

Definition bind {A B} (r : result A) (k : A -> result B) : result B :=
  match r with
  | Ok a => k a
  | Raise e => Raise e
  end.

(** [fails_with r cls]: the call raised an exception of the class named [cls]. *)
Definition fails_with {A} (r : result A) (cls : string) : Prop :=
  exists e, r = Raise e /\ exn_name e = cls.

(** A string object: its address and its characters.  [a is b] compares
    addresses, [a == b] compares characters. *)
Record pystr : Type := PyStr { oid : positive; chars : string }.

Definition py_is (a b : pystr) : bool := Pos.eqb (oid a) (oid b).

(** [c.lower()] on one byte of a Python 2 [str]: 'A'..'Z' to 'a'..'z'. *)
Definition lower_ascii (c : ascii) : ascii :=
  let n := nat_of_ascii c in
  if (65 <=? n)%nat && (n <=? 90)%nat then ascii_of_nat (n + 32) else c.

Fixpoint lower (s : string) : string :=
  match s with
  | EmptyString => EmptyString
  | String c s' => String (lower_ascii c) (lower s')
  end.

(** [str.lower(x)], the unbound method: [TypeError] unless [x] is a [str];
    otherwise a new string object, allocated at [fresh], holding the lowered
    characters. *)
Definition str_lower (fresh : positive) (x : option pystr) : result pystr :=
  match x with
  | None => Raise TypeError
  | Some s => Ok {| oid := fresh; chars := lower (chars s) |}
  end.

(** Standard output and a result: what a function that prints produces. *)
Record outcome (A : Type) : Type := Outcome { stdout : list string; value : result A }.
Arguments Outcome {A} stdout value.
Arguments stdout {A} o.
Arguments value {A} o.

Definition ret {A} (a : A) : outcome A := Outcome [] (Ok a).
Definition lift {A} (r : result A) : outcome A := Outcome [] r.
Definition print (lines : list string) : outcome unit := Outcome lines (Ok tt).

Definition obind {A B} (m : outcome A) (k : A -> outcome B) : outcome B :=
  match value m with
  | Ok a => let n := k a in Outcome (stdout m ++ stdout n) (value n)
  | Raise e => Outcome (stdout m) (Raise e)
  end.

End Py.

Export Py.

#[global] Instance result_ret : MRet result := @Py.Ok.
#[global] Instance result_bind : MBind result := fun A B k r => Py.bind r k.
#[global] Instance outcome_ret : MRet outcome := @Py.ret.
#[global] Instance outcome_bind : MBind outcome := fun A B k m => Py.obind m k.

(** ** numpy: arrays, reductions, [linspace], [meshgrid] *)

Module Np.

(** An [ndarray]: its shape and its elements in row-major order. *)
Record ndarray : Type := NdArray { shape : list nat; flat : list Q }.

Definition array1 (l : list Q) : ndarray := NdArray [length l] l.
Definition array2 (rows cols : nat) (l : list Q) : ndarray := NdArray [rows; cols] l.

Definition ndim (a : ndarray) : nat := length (shape a).

(** [a.min()] and [a.max()]: over all elements, whatever the shape;
    [ValueError] on an array of size zero. *)
Definition amin (a : ndarray) : result Q :=
  match flat a with
  | [] => Raise ValueError
  | x :: l => Ok (fold_left Qmin l x)
  end.

Definition amax (a : ndarray) : result Q :=
  match flat a with
  | [] => Raise ValueError
  | x :: l => Ok (fold_left Qmax l x)
  end.

(** *** Floating-point arithmetic

    numpy computes on [float64].  A finite [float64] is a rational number,
    and the result of an operation is the exact result, rounded.  [fl] is
    that rounding; the properties below use no more of it than that it
    respects equality of rationals and leaves zero as it is. *)
Class rounding : Type := Rounding {
  fl : Q -> Q;
  fl_proper : forall x y : Q, (x == y)%Q -> (fl x == fl y)%Q;
  fl_zero : (fl 0 == 0)%Q
}.

(** The integer nearest to [n / d], for [n >= 0]; a tie goes to the even
    one. *)
Definition round_half_even (n : Z) (d : positive) : Z :=
  let f := (n / Zpos d)%Z in
  match (2 * (n mod Zpos d) ?= Zpos d)%Z with
  | Lt => f
  | Gt => (f + 1)%Z
  | Eq => if Z.even f then f else (f + 1)%Z
  end.

(** The binary exponent of [p / q]: the [e] with [2^e <= p / q < 2^(e+1)]. *)
Definition exponent (p q : positive) : Z :=
  let k := (Z.log2 (Zpos p) - Z.log2 (Zpos q))%Z in
  if (0 <=? k)%Z
  then (if (Zpos q * 2 ^ k <=? Zpos p)%Z then k else k - 1)%Z
  else (if (Zpos q <=? Zpos p * 2 ^ (- k))%Z then k else k - 1)%Z.

(** IEEE 754 binary64, round to nearest, ties to even, of [p / q > 0]: a
    significand of 53 bits, and of fewer below [2^-1022], where the spacing
    stays [2^-1074]. *)
Definition round64_pos (p q : positive) : Q :=
  let u := Z.max (exponent p q - 52) (-1074) in
  if (0 <=? u)%Z
  then inject_Z (round_half_even (Zpos p) (q * Z.to_pos (2 ^ u)) * 2 ^ u)
  else Qmake (round_half_even (Zpos p * 2 ^ (- u)) q) (Z.to_pos (2 ^ (- u))).

(** The [float64] nearest to [x].  A magnitude of [2^1024] or more, which
    the format replaces by an infinity, is rounded as if the exponents went
    on: such values are beyond the model. *)
Definition round64 (x : Q) : Q :=
  let x := Qred x in
  match Qnum x with
  | Z0 => 0%Q
  | Zpos p => Qred (round64_pos p (Qden x))
  | Zneg p => Qred (- round64_pos p (Qden x))
  end.

#[global] Instance binary64 : rounding.
Proof.
  refine {| fl := round64 |}.
  - intros x y Hxy. unfold round64. now rewrite (Qred_complete x y Hxy).
  - reflexivity.
Defined.

(** [np.linspace(start, stop, num)] with the default [endpoint=True]:
    [arange(0, num) * step + start] with [step = (stop - start) / (num - 1)],
    each operation rounded, and [arange(0, num) / (num - 1) * (stop - start)]
    for the product where the step has underflowed to zero; the last sample
    is then set to [stop] when [num > 1]; one sample is [start] alone, none
    is the empty array, a negative count is a [ValueError]. *)
Definition linspace {r : rounding} (start stop : Q) (num : Z)
  : result (list Q) :=
  if (num <? 0)%Z then Raise ValueError
  else
    match Z.to_nat num with
    | O => Ok []
    | S O => Ok [start]
    | S (S k) =>
        let div := inject_Z (Z.of_nat (S k)) in
        let delta := fl (stop - start) in
        let step := fl (delta / div) in
        let y (i : nat) : Q :=
          if Qeq_bool step 0
          then fl (fl (inject_Z (Z.of_nat i) / div) * delta)
          else fl (inject_Z (Z.of_nat i) * step) in
        Ok (((fun i : nat => fl (y i + start)) <$> seq 0 (S k)) ++ [stop])
    end.

(** [np.meshgrid(x, y)] with the default ['xy'] indexing: both results have
    shape [(len y, len x)]; the first repeats [x] along the rows, the second
    repeats each element of [y] along its row. *)
Definition meshgrid (x y : ndarray) : ndarray * ndarray :=
  let m := length (flat x) in
  let n := length (flat y) in
  (NdArray [n; m] (concat (replicate n (flat x))),
   NdArray [n; m] (concat (replicate m <$> flat y))).

(** The elementwise functions the source names.  What they compute is the
    library's business: applying one is kept as a term of [aexp]. *)
Inductive ufunc : Type := sqrt | log10 | log.

Inductive aexp : Type :=
| Arr (a : ndarray)
| Apply (f : ufunc) (e : aexp)
| Times (e : aexp) (k : Q).

(** Attribute access [np.<name>] on the module object: the attribute or
    [AttributeError].  The values of the dict display of [traj_scatter] are
    looked up through it; [np.linspace], [np.meshgrid], [np.log] and
    [np.sqrt], which the source calls directly, are taken as present. *)
Definition namespace : Type := string -> result ufunc.

(** numpy as it is: it has [sqrt], [log10] and [log], and no [ln]. *)
Definition numpy : namespace := fun name =>
  if String.eqb name "sqrt" then Ok sqrt
  else if String.eqb name "log10" then Ok log10
  else if String.eqb name "log" then Ok log
  else Raise AttributeError.

End Np.

Export Np.

(** ** The module [pysplit.mapmaker] *)

Module Mapmaker.

(** A matplotlib colormap: its name and [N], the number of colours. *)
Record colormap : Type := Colormap { cmap_name : string; cmap_N : Z }.
Definition Blues : colormap := Colormap "Blues" 256.
Definition nipy_spectral : colormap := Colormap "nipy_spectral" 256.

(** [matplotlib.colors] normalisations the source constructs. *)
Inductive norm : Type :=
| BoundaryNorm (boundaries : list Q) (ncolors : Z)
| LogNorm.

(** The call [clr.BoundaryNorm(boundaries, ncolors)], as matplotlib's
    constructor runs today: it reads [boundaries[0]] and [boundaries[-1]],
    an [IndexError] on an empty array; it then asks for two boundaries at
    least and for no more bins than colours, a [ValueError] otherwise. *)
Definition clr_BoundaryNorm (boundaries : list Q) (ncolors : Z) : result norm :=
  match boundaries with
  | [] => Raise IndexError
  | [_] => Raise ValueError
  | _ =>
      if (ncolors <? Z.of_nat (length boundaries) - 1)%Z then Raise ValueError
      else Ok (BoundaryNorm boundaries ncolors)
  end.

(** Keyword arguments passed through untouched. *)
Definition kwargs : Type := list (string * string).

(** The [s] argument of [scatter]: the scalar [size], or [sizedata * size]. *)
Inductive sizes : Type :=
| Size (s : Q)
| Sizes (e : aexp).

(** The call [cavemap.scatter(lons, lats, c=.., s=.., cmap=.., vmin=..,
    vmax=.., zorder=.., edgecolor=.., norm=.., latlon=True, **kwargs)]. *)
Record scatter_call : Type := ScatterCall {
  sc_lons : ndarray;
  sc_lats : ndarray;
  sc_c : aexp;
  sc_s : sizes;
  sc_cmap : colormap;
  sc_vmin : option Q;
  sc_vmax : option Q;
  sc_zorder : Z;
  sc_edgecolor : string;
  sc_norm : option norm;
  sc_latlon : bool;
  sc_kwargs : kwargs
}.

(** The cosmetic keyword arguments of [traj_scatter], with their defaults. *)
Record scatter_style : Type := ScatterStyle {
  zorder : Z;
  cmap : colormap;
  edgecolor : string;
  extra : kwargs
}.
Definition default_style : scatter_style := ScatterStyle 19 Blues "none" [].

(** The string constants of [traj_scatter]'s code object that the source
    compares against with [is]; they exist before any call. *)
Definition lit_boundary : pystr := PyStr 1 "boundary".
Definition lit_log : pystr := PyStr 2 "log".
Definition lit_ln : pystr := PyStr 3 "ln".
Definition lit_sqrt : pystr := PyStr 4 "sqrt".
Definition literals : list pystr := [lit_boundary; lit_log; lit_ln; lit_sqrt].

Definition msg : string :=
  "Use `cbar.ax.set_yticklabels()` " +:+
  "or cbar.ax.set_xticklabels()` to change tick labels".

(** Lines 70-72: the dict display; its values are attribute lookups on [np],
    evaluated in order. *)
Definition make_transform_dict (np : namespace) : result (gmap string ufunc) :=
  f_sqrt ← np "sqrt";
  f_log ← np "log10";
  f_ln ← np "ln";
  mret (<["ln" := f_ln]> (<["log" := f_log]> (<["sqrt" := f_sqrt]> ∅))).

(** [vmin if vmin is not None else data.min()], and the like for [vmax]. *)
Definition default_to (v : option Q) (d : result Q) : result Q :=
  match v with
  | Some q => Ok q
  | None => d
  end.

(** Lines 74-88: the chain of [is] tests on the lowered mode.  It yields the
    rebound [data], [vmin], [vmax] and [norm]. *)
Definition select_cnorm {r : rounding} (cnormalize : pystr) (data : ndarray)
    (cm : colormap) (vmin vmax : option Q) (levels : Z)
  : outcome (aexp * option Q * option Q * option norm) :=
  if py_is cnormalize lit_boundary then
    lift (lo ← default_to vmin (amin data);
          hi ← default_to vmax (amax data);
          bounds ← linspace lo hi levels;
          norm ← clr_BoundaryNorm bounds (cmap_N cm);
          mret (Arr data, Some lo, Some hi, Some norm))
  else if py_is cnormalize lit_log then
    mret (Arr data, vmin, vmax, Some LogNorm)
  else if py_is cnormalize lit_ln then
    _ ← print [msg +:+ " "; "natural log normalization"];
    mret (Apply log (Arr data), vmin, vmax, None)
  else if py_is cnormalize lit_sqrt then
    _ ← print [msg +:+ " "; "sqrt normalization"];
    mret (Apply sqrt (Arr data), vmin, vmax, None)
  else
    mret (Arr data, vmin, vmax, None).

(** Lines 90-93: marker sizes.  [snormalize] is the dict key as given. *)
Definition scale_size (transform_dict : gmap string ufunc) (size : Q)
    (sizedata : option ndarray) (snormalize : option pystr) : result sizes :=
  match sizedata with
  | None => Ok (Size size)
  | Some sd =>
      e ← match snormalize with
          | None => Ok (Arr sd)
          | Some key =>
              match transform_dict !! chars key with
              | Some f => Ok (Apply f (Arr sd))
              | None => Raise KeyError
              end
          end;
      mret (Sizes (Times e size))
  end.

(** [traj_scatter(data, lons, lats, cavemap, zorder, colormap, edgecolor, size,
    sizedata, cnormalize, snormalize, vmin, vmax, levels, **kwargs)].
    [np] is the module the global name [np] is bound to, [fresh] the address
    at which [str.lower] allocates its result. *)
Definition traj_scatter {r : rounding} (np : namespace) (fresh : positive)
    (data lons lats : ndarray) (style : scatter_style)
    (size : Q) (sizedata : option ndarray)
    (cnormalize snormalize : option pystr)
    (vmin vmax : option Q) (levels : Z) : outcome scatter_call :=
  cnormalize ← lift (str_lower fresh cnormalize);
  transform_dict ← lift (make_transform_dict np);
  '(c, vmin, vmax, norm) ← select_cnorm cnormalize data (cmap style) vmin vmax levels;
  s ← lift (scale_size transform_dict size sizedata snormalize);
  mret (ScatterCall lons lats c s (cmap style) vmin vmax (zorder style)
          (edgecolor style) norm true (extra style)).

(** The call [cavemap.contourf(...)] ([cc_filled]) or [cavemap.contour(...)]
    with its arguments. *)
Record contour_call : Type := ContourCall {
  cc_filled : bool;
  cc_lons : ndarray;
  cc_lats : ndarray;
  cc_data : ndarray;
  cc_zorder : Z;
  cc_cmap : colormap;
  cc_levels : list Q;
  cc_latlon : bool;
  cc_colors : option (list string);
  cc_kwargs : kwargs
}.

(** [meteo_contouring(cavemap, data, longitudes, latitudes, contourf, vmin,
    vmax, steps, levels, colors, colormap, zorder, **kwargs)]. *)
Definition meteo_contouring {r : rounding}
    (data longitudes latitudes : ndarray) (contourf : bool)
    (vmin vmax : option Q) (steps : Z)
    (levels : option (list Q)) (colors : option (list string))
    (cm : colormap) (zorder : Z) (kw : kwargs) : result contour_call :=
  vmin ← default_to vmin (amin data);
  vmax ← default_to vmax (amax data);
  levels ← match levels with
           | Some l => Ok l
           | None => linspace vmin vmax steps
           end;
  let '(longitudes, latitudes) :=
    if (ndim longitudes =? 1)%nat && (ndim data =? 2)%nat
    then meshgrid longitudes latitudes
    else (longitudes, latitudes) in
  mret (ContourCall contourf longitudes latitudes data zorder cm levels true
          colors kw).

(** *** The object store of [adjust_contourparams]

    The function receives [colors] and the contour set's collections by
    reference.  A list of colours is a list object; a matplotlib collection
    is an object whose state is the sequence of calls made on it. *)

Definition loc : Type := positive.

Inductive artist_op : Type :=
| Setp (kw : kwargs)
| SetColor (c : string)
| SetAlpha (a : Q).

Inductive obj : Type :=
| OList (items : list (option string))
| OArtist (calls : list artist_op).

Abbreviation heap := (gmap loc obj).

(** A computation on the store that returns or raises. *)
Definition St (A : Type) : Type := heap -> heap * result A.

Definition st_ret {A} (a : A) : St A := fun h => (h, Ok a).
Definition st_raise {A} (e : exn) : St A := fun h => (h, Raise e).
Definition st_bind {A B} (m : St A) (k : A -> St B) : St B := fun h =>
  match m h with
  | (h', Ok a) => k a h'
  | (h', Raise e) => (h', Raise e)
  end.

(** [len(l)] and [l[i]] on a list object. *)
Definition len (l : loc) : St nat := fun h =>
  match h !! l with
  | Some (OList items) => (h, Ok (length items))
  | _ => (h, Raise TypeError)
  end.

Definition getitem (l : loc) (i : nat) : St (option string) := fun h =>
  match h !! l with
  | Some (OList items) =>
      match items !! i with
      | Some c => (h, Ok c)
      | None => (h, Raise IndexError)
      end
  | _ => (h, Raise TypeError)
  end.

(** A list display or [[x] * n]: a new list object at an unused address. *)
Definition new_list (items : list (option string)) : St loc := fun h =>
  let l := fresh (dom h) in (<[l := OList items]> h, Ok l).

(** A method call on a collection, recorded in its state. *)
Definition call (coll : loc) (op : artist_op) : St unit := fun h =>
  match h !! coll with
  | Some (OArtist calls) => (<[coll := OArtist (calls ++ [op])]> h, Ok tt)
  | _ => (h, Raise AttributeError)
  end.

(** [level in contours] and [contours.index(level)], both by [==]. *)
Definition contains (contours : list Q) (level : Q) : bool :=
  existsb (fun c => Qeq_bool c level) contours.

Fixpoint index (contours : list Q) (level : Q) : result nat :=
  match contours with
  | [] => Raise ValueError
  | c :: rest =>
      if Qeq_bool c level then Ok O
      else match index rest level with
           | Ok i => Ok (S i)
           | Raise e => Raise e
           end
  end.

(** The contour set [cm]: its [levels] and its [collections]. *)
Record contour_set : Type := ContourSet {
  cs_levels : list Q;
  cs_collections : list loc
}.

(** Lines 246-254: the body of the loop, for one [(level, coll)]. *)
Definition adjust_one (contours : list Q) (colors : loc)
    (othercontours_visible : bool) (kw : kwargs) (level : Q) (coll : loc)
  : St unit :=
  if contains contours level then
    st_bind (fun h => (h, index contours level)) (fun ind =>
    st_bind (getitem colors ind) (fun color =>
    st_bind (call coll (Setp kw)) (fun _ =>
    match color with
    | Some c => call coll (SetColor c)
    | None => st_ret tt
    end)))
  else if negb othercontours_visible then call coll (SetAlpha 0)
  else st_ret tt.

(** Line 245: the loop over [zip(cm.levels, cm.collections)]. *)
Fixpoint adjust_loop (contours : list Q) (colors : loc)
    (othercontours_visible : bool) (kw : kwargs) (items : list (Q * loc))
  : St unit :=
  match items with
  | [] => st_ret tt
  | (level, coll) :: rest =>
      st_bind (adjust_one contours colors othercontours_visible kw level coll)
        (fun _ => adjust_loop contours colors othercontours_visible kw rest)
  end.

(** Lines 242-243: the local name [colors] after the length test. *)
Definition broadcast_colors (contours : list Q) (colors : loc) : St loc :=
  st_bind (len colors) (fun n =>
  if decide (length contours = n) then st_ret colors
  else st_bind (getitem colors 0) (fun c0 =>
       new_list (replicate (length contours) c0))).

(** [adjust_contourparams(cm, contours, colors, othercontours_visible,
    **kwargs)]: the store after the call and whether it raised. *)
Definition adjust_contourparams (cm : contour_set) (contours : list Q)
    (colors : loc) (othercontours_visible : bool) (kw : kwargs) : St unit :=
  st_bind (broadcast_colors contours colors) (fun colors =>
  adjust_loop contours colors othercontours_visible kw
    (zip (cs_levels cm) (cs_collections cm))).

(** The default of [colors]: the list [[None]], built once when the function
    is defined and shared by every call that omits the argument. *)
Definition default_colors : loc := 1%positive.
Definition has_default (h : heap) : Prop := h !! default_colors = Some (OList [None]).

End Mapmaker.

Export Mapmaker.

(** ** The colorbar helpers of [pysplit.mapmaker] *)

Module Colorbar.

#[local] Set Warnings "-register-all".

(** A Python value given as an argument: [None], a number, a string or a
    tuple. *)
Inductive pyval : Type :=
| VNone
| VNum (q : Q)
| VStr (s : string)
| VTuple (items : list pyval).

Definition is_none (v : pyval) : bool :=
  match v with
  | VNone => true
  | _ => false
  end.

(** [v[i]] for a non-negative [i]: an element of a tuple, a character of a
    string, [IndexError] out of range, [TypeError] on [None] and numbers. *)
Definition subscript (v : pyval) (i : nat) : result pyval :=
  match v with
  | VTuple items =>
      match items !! i with
      | Some x => Ok x
      | None => Raise IndexError
      end
  | VStr s =>
      match String.get i s with
      | Some c => Ok (VStr (String c EmptyString))
      | None => Raise IndexError
      end
  | VNone | VNum _ => Raise TypeError
  end.

(** Figures, axes and mappables are the backend's; they are named only. *)
Definition handle : Type := positive.

(** The calls the helpers make on the backend, the colorbar and its axes. *)
Inductive cbar_call : Type :=
| PltColorbar (mappable ax : handle) (orientation : pystr) (aspect shrink : pyval)
| FigAddAxes (fig : handle) (rect : pyval)
| FigColorbar (fig mappable : handle) (orientation : pystr) (extend : pyval)
| InvertXaxis
| InvertYaxis
| SetLocator (nbins : pyval)
| TickParams (labelsize direction length width : pyval)
| UpdateTicks
| SetLabel (label labelpad fontsize rotation : pyval)
| CbarSetAlpha (a : Z)
| DrawAll.

(** The calls made so far, in order, and how the function ended. *)
Record traced (A : Type) : Type := Traced { calls : list cbar_call; returned : result A }.
Arguments Traced {A} calls returned.
Arguments calls {A} t.
Arguments returned {A} t.

Definition tret {A} (a : A) : traced A := Traced [] (Ok a).
Definition tlift {A} (r : result A) : traced A := Traced [] r.
Definition emit (c : cbar_call) : traced unit := Traced [c] (Ok tt).

Definition tbind {A B} (m : traced A) (k : A -> traced B) : traced B :=
  match returned m with
  | Ok a => let n := k a in Traced (calls m ++ calls n) (returned n)
  | Raise e => Traced (calls m) (Raise e)
  end.

End Colorbar.

Export Colorbar.

#[global] Instance traced_ret : MRet traced := @Colorbar.tret.
#[global] Instance traced_bind : MBind traced := fun A B k m => Colorbar.tbind m k.

Module CbarHelpers.

(** [edit_cbar(cbar, divisions, cbar_label, tick_fs, label_fs, labelpad,
    rotation, tick_dir, tick_dim)]: the calls on [cbar] and [cbar.ax].
    The locator is [tk.MaxNLocator(divisions, integer=False)]. *)
Definition edit_cbar (divisions cbar_label tick_fs label_fs labelpad rotation
                        tick_dir tick_dim : pyval) : traced unit :=
  _ ← (if is_none divisions then mret tt else emit (SetLocator divisions));
  length ← tlift (subscript tick_dim 0);
  width ← tlift (subscript tick_dim 1);
  _ ← emit (TickParams tick_fs tick_dir length width);
  _ ← emit UpdateTicks;
  _ ← (if is_none cbar_label then mret tt
       else emit (SetLabel cbar_label labelpad label_fs rotation));
  _ ← emit (CbarSetAlpha 1);
  emit DrawAll.

(** The keyword parameters of [edit_cbar], and a keyword's value in a
    [**kwargs] dict or its default. *)
Definition edit_cbar_keywords : list string :=
  ["divisions"; "cbar_label"; "tick_fs"; "label_fs"; "labelpad"; "rotation";
   "tick_dir"; "tick_dim"].

Definition kwarg (kw : gmap string pyval) (name : string) (dflt : pyval) : pyval :=
  default dflt (kw !! name).

(** [edit_cbar(cbar, **kwargs)]: a keyword that is no parameter of
    [edit_cbar] is a [TypeError] at the call, before its body runs. *)
Definition edit_cbar_kwargs (kw : gmap string pyval) : traced unit :=
  if bool_decide (map_Forall (fun k _ => k ∈ edit_cbar_keywords) kw) then
    edit_cbar (kwarg kw "divisions" (VNum 5)) (kwarg kw "cbar_label" VNone)
      (kwarg kw "tick_fs" (VNum 16)) (kwarg kw "label_fs" (VNum 18))
      (kwarg kw "labelpad" (VNum 24)) (kwarg kw "rotation" (VNum 0))
      (kwarg kw "tick_dir" (VStr "out"))
      (kwarg kw "tick_dim" (VTuple [VNum 4; VNum 2]))
  else tlift (Raise TypeError).

(** The constant ['horizontal'] of the module: the default of [orientation]
    and the object the [is] tests compare with. *)
Definition lit_horizontal : pystr := PyStr 5 "horizontal".

(** [if reverse_cbar: if orientation is 'horizontal': ... else: ...]. *)
Definition reverse (reverse_cbar : bool) (orientation : pystr) : traced unit :=
  if reverse_cbar then
    if py_is orientation lit_horizontal then emit InvertXaxis
    else emit InvertYaxis
  else mret tt.

(** [make_cbar(data, ax, orientation, cbar_size, reverse_cbar, **kwargs)];
    the colorbar it returns is the object the calls after [PltColorbar] are
    made on. *)
Definition make_cbar (data ax : handle) (orientation : pystr) (cbar_size : pyval)
    (reverse_cbar : bool) (kw : gmap string pyval) : traced unit :=
  aspect ← tlift (subscript cbar_size 0);
  shrink ← tlift (subscript cbar_size 1);
  _ ← emit (PltColorbar data ax orientation aspect shrink);
  _ ← reverse reverse_cbar orientation;
  edit_cbar_kwargs kw.

Definition default_cbar_size : pyval := VTuple [VNum 20; VNum 1].

(** [make_cax_cbar(fig, rect, data, orientation, reverse_cbar, extend,
    **kwargs)]; it returns the new axes and the colorbar. *)
Definition make_cax_cbar (fig : handle) (rect : pyval) (data : handle)
    (orientation : pystr) (reverse_cbar : bool) (extend : pyval)
    (kw : gmap string pyval) : traced unit :=
  _ ← emit (FigAddAxes fig rect);
  _ ← emit (FigColorbar fig data orientation extend);
  _ ← reverse reverse_cbar orientation;
  edit_cbar_kwargs kw.

End CbarHelpers.

Export CbarHelpers.

(** ** [random_colors] *)

Module Colors.

(** [np.vsplit] can raise [ZeroDivisionError] besides the classes of [exn]. *)
Inductive np_exn : Type :=
| Builtin (e : exn)
| ZeroDivisionError.

Inductive res (A : Type) : Type :=
| Returns (a : A)
| Raises (e : np_exn).
Arguments Returns {A} a.
Arguments Raises {A} e.

Definition rbind {A B} (r : res A) (k : A -> res B) : res B :=
  match r with
  | Returns a => k a
  | Raises e => Raises e
  end.

(** [np.random.rand(d0, d1)]: [d0 * d1] draws of the generator, in order, as
    an array of shape [(d0, d1)]; a negative dimension is a [ValueError].
    [draws k] is the generator's [k]-th draw from now. *)
Definition random_rand (draws : nat -> Q) (d0 : Z) (d1 : nat) : res ndarray :=
  if (d0 <? 0)%Z then Raises (Builtin ValueError)
  else Returns (NdArray [Z.to_nat d0; d1] (draws <$> seq 0 (Z.to_nat d0 * d1))).

(** [np.vsplit(ary, sections)] for an integer [sections]: [ValueError] under
    two dimensions; then [split] computes [N % sections], a
    [ZeroDivisionError] for no section and a [ValueError] when it is not
    zero; [array_split] refuses a negative count; otherwise [sections] blocks
    of [N / sections] rows each. *)
Definition vsplit (ary : ndarray) (sections : Z) : res (list ndarray) :=
  match shape ary with
  | rows :: (_ :: _) as inner =>
      if (sections =? 0)%Z then Raises ZeroDivisionError
      else if negb (Z.of_nat rows mod sections =? 0)%Z then
        Raises (Builtin ValueError)
      else if (sections <? 0)%Z then Raises (Builtin ValueError)
      else
        let k := Z.to_nat sections in
        let each := (rows / k)%nat in
        let width := foldr Nat.mul 1%nat inner in
        Returns ((fun i : nat =>
                    NdArray (each :: inner)
                      (take (each * width) (drop (i * (each * width)) (flat ary))))
                   <$> seq 0 k)
  | _ => Raises (Builtin ValueError)
  end.

(** [c[0]]: the first row of [c]. *)
Definition first_row (c : ndarray) : res ndarray :=
  match shape c with
  | [] => Raises (Builtin IndexError)
  | rows :: inner =>
      if (rows =? 0)%nat then Raises (Builtin IndexError)
      else Returns (NdArray inner (take (foldr Nat.mul 1%nat inner) (flat c)))
  end.

(** Lines 437-439: [for c in color_tmp: colors.append(c[0])]. *)
Fixpoint append_rows (colors : list ndarray) (color_tmp : list ndarray)
  : res (list ndarray) :=
  match color_tmp with
  | [] => Returns colors
  | c :: rest => rbind (first_row c) (fun row => append_rows (colors ++ [row]) rest)
  end.

(** [random_colors(number_ofcolors)]. *)
Definition random_colors (draws : nat -> Q) (number_ofcolors : Z)
  : res (list ndarray) :=
  rbind (random_rand draws number_ofcolors 3) (fun color_tmp =>
  rbind (vsplit color_tmp number_ofcolors) (fun color_tmp =>
  append_rows [] color_tmp)).

End Colors.

Export Colors.

(** * Vocabulary of the properties *)

(** An array whose buffer holds as many elements as its shape says. *)
Definition wf_array (a : ndarray) : Prop :=
  length (flat a) = foldr Nat.mul 1%nat (shape a).

(** Element [(i, j)] of a two-dimensional array. *)
Definition at2 (a : ndarray) (i j : nat) : option Q :=
  match shape a with
  | [_; m] => flat a !! (i * m + j)%nat
  | _ => None
  end.


(** The claims' "exactly [n] evenly spaced values from [lo] to [hi]
    inclusive": [n] values, the first is [lo], the last is [hi], and any two
    neighbours are [(hi - lo) / (n - 1)] apart. *)
Definition evenly_spaced (lo hi : Q) (n : Z) (l : list Q) : Prop :=
  Z.of_nat (length l) = n
  /\ (exists x, head l = Some x /\ (x == lo)%Q)
  /\ (exists y, last l = Some y /\ (y == hi)%Q)
  /\ (forall (i : nat) (x y : Q),
         l !! i = Some x -> l !! S i = Some y ->
         (y - x == (hi - lo) / (inject_Z n - 1))%Q).




(** The rational a binary64 number of the kernel stands for; an infinity
    and NaN stand for none. *)
Definition float_value (f : PrimFloat.float) : option Q :=
  match FloatOps.Prim2SF f with
  | SpecFloat.S754_zero _ => Some 0%Q
  | SpecFloat.S754_finite s m e =>
      let v := if (0 <=? e)%Z then inject_Z (Zpos m * 2 ^ e)
               else Qmake (Zpos m) (Z.to_pos (2 ^ (- e))) in
      Some (Qred (if s then - v else v))
  | _ => None
  end.

(** An operation of the kernel's floats gives, on [x] and [y], the rounding
    by [round64] of the exact operation on their values. *)
Definition rounds_as (op : PrimFloat.float -> PrimFloat.float -> PrimFloat.float)
    (exact : Q -> Q -> Q) (x y : PrimFloat.float) : bool :=
  match float_value x, float_value y, float_value (op x y) with
  | Some a, Some b, Some c => Qeq_bool c (round64 (exact a b))
  | _, _, _ => false
  end.

(** The four operations at once; a product or quotient beyond the range
    of the format is left out. *)
Definition rounds_all (x y : PrimFloat.float) : bool :=
  rounds_as PrimFloat.add Qplus x y
  && rounds_as PrimFloat.sub Qminus x y
  && match float_value (PrimFloat.mul x y), float_value (PrimFloat.div x y) with
     | Some _, Some _ =>
         rounds_as PrimFloat.mul Qmult x y && rounds_as PrimFloat.div Qdiv x y
     | _, _ => true
     end.

(** Operands to compare the two on: quotients [a / b] of small integers,
    scaled by a power of two; some of them lie in the subnormal range. *)
Definition float_of_Z (z : Z) : PrimFloat.float :=
  if (z <? 0)%Z then PrimFloat.opp (PrimFloat.of_uint63 (Uint63.of_Z (- z)))
  else PrimFloat.of_uint63 (Uint63.of_Z z).

Definition scaled (a b k : Z) : PrimFloat.float :=
  PrimFloat.ldshiftexp (PrimFloat.div (float_of_Z a) (float_of_Z b))
    (Uint63.of_Z (k + 2101)).

Definition operands : list PrimFloat.float :=
  a ← [1; 3; -7]%Z; b ← [1; 3; 10]%Z; k ← [0; -1; 60]%Z; [scaled a b k].

Definition subnormal_operands : list PrimFloat.float :=
  [scaled 1 3 (-1022); scaled 3 1 (-1074); scaled (-7) 10 (-1060);
   scaled 10 1 (-1030)].

(** A module object like numpy that also has an attribute [ln].  numpy has
    none; this namespace serves to read lines 74-93, which line 72 shields. *)
Definition numpy_with_ln : namespace := fun name =>
  if String.eqb name "ln" then Ok log else numpy name.

(** The claims' "broadcasts the first supplied color to every listed contour
    level": the loop of [adjust_contourparams] with the one colour [color]
    for every level of [contours]. *)
Definition recolor_one (contours : list Q) (color : option string)
    (othercontours_visible : bool) (kw : kwargs) (level : Q) (coll : loc)
  : St unit :=
  if contains contours level then
    st_bind (call coll (Setp kw)) (fun _ =>
    match color with
    | Some c => call coll (SetColor c)
    | None => st_ret tt
    end)
  else if negb othercontours_visible then call coll (SetAlpha 0)
  else st_ret tt.

Fixpoint recolor_all (contours : list Q) (color : option string)
    (othercontours_visible : bool) (kw : kwargs) (items : list (Q * loc))
  : St unit :=
  match items with
  | [] => st_ret tt
  | (level, coll) :: rest =>
      st_bind (recolor_one contours color othercontours_visible kw level coll)
        (fun _ => recolor_all contours color othercontours_visible kw rest)
  end.

(** Every collection of the contour set is a matplotlib artist of the store. *)
Definition artists (h : heap) (colls : list loc) : Prop :=
  Forall (fun l => exists calls, h !! l = Some (OArtist calls)) colls.

(** A computation that leaves every list object of the store as it found it. *)
Definition keeps_lists {A} (m : St A) : Prop :=
  forall (h : heap) (l : loc) (items : list (option string)),
    h !! l = Some (OList items) -> (m h).1 !! l = Some (OList items).

(** A store to run [adjust_contourparams] on: the shared default [[None]],
    an empty list of colours, a list of two colours, and two collections. *)
Definition demo_store : heap :=
  <[6%positive := OArtist []]>
    (<[5%positive := OArtist []]>
       (<[3%positive := OList [Some "red"; None]]>
          (<[2%positive := OList []]>
             (<[default_colors := OList [None]]> ∅)))).

Definition demo_contours : contour_set :=
  ContourSet [1; 2; 5]%Q [5%positive; 6%positive].

(** The calls one turn of the loop of [adjust_contourparams] makes on the
    collection of [level], with the colours [colors]: the keywords, then the
    colour of the level's first occurrence in [contours] unless it is
    [None]; for a level that is not listed, [set_alpha(0)] when the other
    contours are to be hidden, and nothing otherwise. *)
Definition turn_calls (contours : list Q) (colors : list (option string))
    (othercontours_visible : bool) (kw : kwargs) (level : Q) : list artist_op :=
  if contains contours level then
    Setp kw ::
      match index contours level with
      | Ok i =>
          match colors !! i with
          | Some (Some c) => [SetColor c]
          | _ => []
          end
      | Raise _ => []
      end
  else if negb othercontours_visible then [SetAlpha 0]
  else [].

(** A value whose items 0 and 1 can be read: a tuple or a string of two
    items or more. *)
Definition has_two (v : pyval) : Prop :=
  exists a b, subscript v 0 = Ok a /\ subscript v 1 = Ok b.

(** The keywords of a [**kwargs] dict are parameters of [edit_cbar]. *)
Definition edit_cbar_accepts (kw : gmap string pyval) : Prop :=
  map_Forall (fun k _ => k ∈ edit_cbar_keywords) kw.

(** The value [edit_cbar] gets for [tick_dim] from a [**kwargs] dict. *)
Definition tick_dim_of (kw : gmap string pyval) : pyval :=
  kwarg kw "tick_dim" (VTuple [VNum 4; VNum 2]).

(** A call that inverts an axis of the colorbar. *)
Definition inverts (c : cbar_call) : Prop := c = InvertXaxis \/ c = InvertYaxis.

(** A call that [edit_cbar] makes after it has read [tick_dim]. *)
Definition finishes (c : cbar_call) : Prop :=
  match c with
  | TickParams _ _ _ _ | UpdateTicks | SetLabel _ _ _ _ | CbarSetAlpha _
  | DrawAll => True
  | _ => False
  end.

(** * Properties *)

(** ** [traj_scatter]: what happens before any mode is looked at *)

Section TrajScatterFailure.

Context {r : rounding}.
Variables (np : namespace) (fresh : positive).
Variables (data lons lats : ndarray) (style : scatter_style).
Variables (size : Q) (sizedata : option ndarray).
Variables (vmin vmax : option Q) (levels : Z).

(** Line 65 on the default [cnormalize=None]: [str.lower(None)] raises. *)
Lemma traj_scatter_None snormalize :
  traj_scatter np fresh data lons lats style size sizedata None snormalize
    vmin vmax levels = Outcome [] (Raise TypeError).
Proof. reflexivity. Qed.

(** Line 72 under numpy: the dict display raises on [np.ln], whatever the
    mode string is. *)
Lemma traj_scatter_numpy_str (c : pystr) snormalize :
  traj_scatter numpy fresh data lons lats style size sizedata (Some c)
    snormalize vmin vmax levels = Outcome [] (Raise AttributeError).
Proof. reflexivity. Qed.


End TrajScatterFailure.

(** No exception of the modelled code has a class outside the built-in ones. *)
Lemma exn_name_builtin (e : exn) :
  In (exn_name e)
     ["TypeError"; "AttributeError"; "KeyError"; "ValueError"; "IndexError"].
Proof. destruct e; simpl; tauto. Qed.

Lemma never_fails_with {A} (r : result A) (cls : string) :
  ~ In cls ["TypeError"; "AttributeError"; "KeyError"; "ValueError"; "IndexError"] ->
  ~ fails_with r cls.
Proof.
  intros Hout (e & _ & Hname). apply Hout. rewrite <- Hname.
  apply exn_name_builtin.
Qed.

(** A string object that is none of the code's constants fails every [is]
    test of lines 74-86: no branch is taken. *)
Lemma py_is_other (s lit : pystr) : oid s <> oid lit -> py_is s lit = false.
Proof. intros Hne. unfold py_is. now apply Pos.eqb_neq. Qed.

Lemma select_cnorm_other {r : rounding} (cn : pystr) (data : ndarray)
    (cm : colormap) (vmin vmax : option Q) (levels : Z) :
  ~ In (oid cn) (map oid literals) ->
  select_cnorm cn data cm vmin vmax levels
  = Outcome [] (Ok (Arr data, vmin, vmax, None)).
Proof.
  intros Hout. unfold select_cnorm.
  rewrite !py_is_other; [reflexivity | | | |];
    intros Heq; apply Hout; rewrite Heq; simpl; tauto.
Qed.

(** ** [traj_scatter]: the claims about colour and size normalisation *)

(** C1 (the code departs from the claim).  With the default [cnormalize=None]
    the call does not return the data unchanged with no norm: line 65 applies
    [str.lower] to [None] and the call raises [TypeError], whatever the
    other arguments and whatever [np] is bound to. *)
Theorem traj_scatter_default_mode_raises :
  forall {r : rounding} (np : namespace) (fresh : positive)
         (data lons lats : ndarray)
         (style : scatter_style) (size : Q) (sizedata : option ndarray)
         (snormalize : option pystr) (vmin vmax : option Q) (levels : Z),
    traj_scatter np fresh data lons lats style size sizedata None snormalize
      vmin vmax levels = Outcome [] (Raise TypeError).
Proof. intros. apply traj_scatter_None. Qed.

(** C2 (the code departs from the claim).  With mode ['boundary'] no
    boundary values reach the backend: under numpy the call raises
    [AttributeError] at line 72, before the boundary branch. *)
Theorem traj_scatter_boundary_raises :
  forall {r : rounding} (fresh o : positive) (data lons lats : ndarray)
         (style : scatter_style) (size : Q) (sizedata : option ndarray)
         (snormalize : option pystr) (vmin vmax : option Q) (levels : Z),
    traj_scatter numpy fresh data lons lats style size sizedata
      (Some (PyStr o "boundary")) snormalize vmin vmax levels
    = Outcome [] (Raise AttributeError).
Proof. intros. apply traj_scatter_numpy_str. Qed.

(** C3, as the claim states it, fails: with a zero appended to
    [[1, 10, 100]] under ['log'] the call does not fail with [DomainError]. *)
Lemma log_of_zero_no_DomainError :
  ~ fails_with
      (value (traj_scatter numpy 9 (array1 [1; 10; 100; 0]%Q)
                (array1 [0; 0; 0; 0]%Q) (array1 [0; 0; 0; 0]%Q) default_style
                25 None (Some (PyStr 8 "log")) None None None 11))
      "DomainError".
Proof. apply never_fails_with. simpl. intuition discriminate. Qed.

(** C3 (amended).  [traj_scatter] checks no domain: no call fails with
    [DomainError], and the ['log'], ['ln'] and ['sqrt'] branches hand the data
    on (as it is, or under [np.log], [np.sqrt]) without looking at its
    values. *)
Theorem traj_scatter_no_domain_check :
  forall {r : rounding},
  (forall (np : namespace) (fresh : positive) (data lons lats : ndarray)
          (style : scatter_style) (size : Q) (sizedata : option ndarray)
          (cnormalize snormalize : option pystr) (vmin vmax : option Q)
          (levels : Z),
      ~ fails_with
          (value (traj_scatter np fresh data lons lats style size sizedata
                    cnormalize snormalize vmin vmax levels))
          "DomainError")
  /\ (forall (data : ndarray) (cm : colormap) (vmin vmax : option Q) (levels : Z),
         value (select_cnorm lit_log data cm vmin vmax levels)
         = Ok (Arr data, vmin, vmax, Some LogNorm)
         /\ value (select_cnorm lit_ln data cm vmin vmax levels)
            = Ok (Apply log (Arr data), vmin, vmax, None)
         /\ value (select_cnorm lit_sqrt data cm vmin vmax levels)
            = Ok (Apply sqrt (Arr data), vmin, vmax, None)).
Proof.
  intros r. split.
  - intros. apply never_fails_with. simpl. intuition discriminate.
  - intros. repeat split; reflexivity.
Qed.

(** The dict of lines 70-72, when all three attributes resolve. *)
Lemma make_transform_dict_Ok (np : namespace) (d : gmap string ufunc) :
  make_transform_dict np = Ok d ->
  exists f_sqrt f_log f_ln,
    np "sqrt" = Ok f_sqrt /\ np "log10" = Ok f_log /\ np "ln" = Ok f_ln
    /\ d = <["ln" := f_ln]> (<["log" := f_log]> (<["sqrt" := f_sqrt]> ∅)).
Proof.
  unfold make_transform_dict, mbind, result_bind, Py.bind, mret, result_ret.
  destruct (np "sqrt") as [f1|]; [|discriminate].
  destruct (np "log10") as [f2|]; [|discriminate].
  destruct (np "ln") as [f3|]; [|discriminate].
  intros [= <-]. now exists f1, f2, f3.
Qed.







(** C5 (the code departs from the claim).  With mode ['ln'] or ['sqrt'] no
    transformed data is returned and no notice is printed: under numpy the
    call raises [AttributeError] at line 72 with nothing written. *)
Theorem traj_scatter_ln_sqrt_raise :
  forall {r : rounding} (fresh o : positive) (data lons lats : ndarray)
         (style : scatter_style) (size : Q) (sizedata : option ndarray)
         (snormalize : option pystr) (vmin vmax : option Q) (levels : Z),
    traj_scatter numpy fresh data lons lats style size sizedata
      (Some (PyStr o "ln")) snormalize vmin vmax levels
    = Outcome [] (Raise AttributeError)
    /\ traj_scatter numpy fresh data lons lats style size sizedata
         (Some (PyStr o "sqrt")) snormalize vmin vmax levels
       = Outcome [] (Raise AttributeError).
Proof. intros. split; apply traj_scatter_numpy_str. Qed.



(** ** [traj_scatter] behind line 72 *)

(** X1.  The [is] tests of lines 74-86 compare the object [str.lower] has just
    made with constants of the code: wherever the dict display succeeds, no
    branch is taken, and the data reaches the backend as it came, with no
    norm and nothing printed, whatever the mode string. *)
Theorem traj_scatter_selects_no_branch :
  forall {r : rounding} (np : namespace) (d : gmap string ufunc)
         (fresh : positive)
         (data lons lats : ndarray) (style : scatter_style) (size : Q)
         (sizedata : option ndarray) (c : pystr) (snormalize : option pystr)
         (vmin vmax : option Q) (levels : Z),
    make_transform_dict np = Ok d ->
    ~ In fresh (map oid literals) ->
    traj_scatter np fresh data lons lats style size sizedata (Some c)
      snormalize vmin vmax levels
    = Outcome []
        (s ← scale_size d size sizedata snormalize;
         mret (ScatterCall lons lats (Arr data) s (cmap style) vmin vmax
                 (zorder style) (edgecolor style) None true (extra style))).
Proof.
  intros * Hd Hfresh.
  unfold traj_scatter, str_lower, mbind, outcome_bind, Py.obind, lift.
  cbn [value stdout]. rewrite Hd. cbn [value stdout].
  rewrite select_cnorm_other by exact Hfresh. cbn [value stdout app].
  destruct (scale_size d size sizedata snormalize); reflexivity.
Qed.

Lemma traj_scatter_selects_no_branch_witness :
  traj_scatter numpy_with_ln 9 (array1 [1; 10; 100]%Q) (array1 [0; 0; 0]%Q)
    (array1 [0; 0; 0]%Q) default_style 25 None (Some (PyStr 8 "boundary"))
    None None None 3
  = Outcome []
      (Ok (ScatterCall (array1 [0; 0; 0]%Q) (array1 [0; 0; 0]%Q)
             (Arr (array1 [1; 10; 100]%Q)) (Size 25) Blues None None 19 "none"
             None true [])).
Proof.
  apply (traj_scatter_selects_no_branch numpy_with_ln
           (<["ln" := log]> (<["log" := log10]> (<["sqrt" := sqrt]> ∅))) 9
           (array1 [1; 10; 100]%Q) (array1 [0; 0; 0]%Q) (array1 [0; 0; 0]%Q)
           default_style 25 None (PyStr 8 "boundary") None None None 3).
  - reflexivity.
  - simpl. intuition discriminate.
Defined.

(** X2.  Line 92 uses [snormalize] as the dict key as it is given: only the exact
    keys ['sqrt'], ['log'] and ['ln'] select a transform; another spelling,
    upper case or the string ['none'] is a [KeyError]. *)
Theorem scale_size_case_sensitive :
  forall (np : namespace) (d : gmap string ufunc) (size : Q) (sd : ndarray)
         (o : positive),
    make_transform_dict np = Ok d ->
    scale_size d size (Some sd) (Some (PyStr o "LOG")) = Raise KeyError
    /\ scale_size d size (Some sd) (Some (PyStr o "none")) = Raise KeyError
    /\ (exists f, np "log10" = Ok f
                  /\ scale_size d size (Some sd) (Some (PyStr o "log"))
                     = Ok (Sizes (Times (Apply f (Arr sd)) size))).
Proof.
  intros * Hd.
  destruct (make_transform_dict_Ok _ _ Hd) as (f1 & f2 & f3 & H1 & H2 & H3 & ->).
  unfold scale_size, mbind, result_bind, Py.bind; cbn [chars].
  split; [|split].
  - rewrite !lookup_insert_ne by discriminate. now rewrite lookup_empty.
  - rewrite !lookup_insert_ne by discriminate. now rewrite lookup_empty.
  - exists f2. split; [exact H2|].
    rewrite lookup_insert_ne by discriminate. now rewrite lookup_insert_eq.
Qed.

Lemma scale_size_case_sensitive_witness :
  scale_size (<["ln" := log]> (<["log" := log10]> (<["sqrt" := sqrt]> ∅))) 25
    (Some (array1 [1; 4]%Q)) (Some (PyStr 8 "LOG")) = Raise KeyError.
Proof.
  apply (scale_size_case_sensitive numpy_with_ln
           (<["ln" := log]> (<["log" := log10]> (<["sqrt" := sqrt]> ∅))) 25
           (array1 [1; 4]%Q) 8).
  reflexivity.
Defined.

(** X3.  Under numpy no call of [traj_scatter] returns: it raises [TypeError] at
    line 65 when the colour mode is [None], and [AttributeError] at line 72
    otherwise, with nothing printed and nothing handed to the backend. *)
Theorem traj_scatter_always_raises :
  forall {r : rounding} (fresh : positive) (data lons lats : ndarray)
         (style : scatter_style)
         (size : Q) (sizedata : option ndarray)
         (cnormalize snormalize : option pystr) (vmin vmax : option Q)
         (levels : Z),
    traj_scatter numpy fresh data lons lats style size sizedata cnormalize
      snormalize vmin vmax levels
    = Outcome []
        (Raise match cnormalize with
               | None => TypeError
               | Some _ => AttributeError
               end).
Proof.
  intros. destruct cnormalize.
  - apply traj_scatter_numpy_str.
  - apply traj_scatter_None.
Qed.

(** ** numpy: reductions, [linspace] and [meshgrid] *)







Lemma amin_nonempty (a : ndarray) : flat a <> [] -> exists m, amin a = Ok m.
Proof. unfold amin. destruct (flat a); [congruence | eauto]. Qed.

Lemma amax_nonempty (a : ndarray) : flat a <> [] -> exists m, amax a = Ok m.
Proof. unfold amax. destruct (flat a); [congruence | eauto]. Qed.



(** [round64] is the rounding of the kernel's binary64 arithmetic: on
    [operands] and on [subnormal_operands], taken two by two, the kernel's
    sum, difference, product and quotient are [round64] of the exact ones. *)
Lemma round64_is_binary64 :
  forallb (fun x => forallb (rounds_all x) operands) operands = true
  /\ forallb
       (fun x => forallb (rounds_all x) (subnormal_operands ++ [scaled 1 3 0]))
       subnormal_operands
     = true.
Proof. split; vm_compute; reflexivity. Qed.




Lemma linspace_nonneg {r : rounding} (start stop : Q) (num : Z) :
  (0 <= num)%Z -> exists l, linspace start stop num = Ok l.
Proof.
  intros Hnum. unfold linspace. destruct (Z.ltb_spec num 0) as [|_]; [lia|].
  destruct (Z.to_nat num) as [|[|k]]; eauto.
Qed.

Lemma linspace_Raise {r : rounding} (start stop : Q) (num : Z) (e : exn) :
  linspace start stop num = Raise e -> e = ValueError /\ (num < 0)%Z.
Proof.
  unfold linspace. destruct (Z.ltb_spec num 0) as [Hneg|_].
  - intros [= <-]. now split.
  - destruct (Z.to_nat num) as [|[|k]]; discriminate.
Qed.

(** The rows of [meshgrid]'s first result are the first axis; row [i] of its
    second result repeats element [i] of the second axis. *)
Lemma lookup_concat_replicate {A} (l : list A) (n i j : nat) :
  (i < n)%nat -> (j < length l)%nat ->
  concat (replicate n l) !! (i * length l + j)%nat = l !! j.
Proof.
  revert i. induction n as [|n IH]; intros i Hi Hj; [lia|].
  simpl. destruct i as [|i].
  - simpl. now rewrite lookup_app_l.
  - rewrite lookup_app_r by (simpl; lia).
    replace (S i * length l + j - length l)%nat with (i * length l + j)%nat
      by (simpl; lia).
    apply IH; lia.
Qed.

Lemma lookup_concat_rows {A} (l : list A) (m i j : nat) :
  (j < m)%nat ->
  concat (replicate m <$> l) !! (i * m + j)%nat = l !! i.
Proof.
  revert i. induction l as [|x l IH]; intros i Hj; [reflexivity|].
  simpl. destruct i as [|i].
  - simpl. rewrite lookup_app_l by (rewrite length_replicate; lia).
    now apply lookup_replicate_2.
  - rewrite lookup_app_r by (rewrite length_replicate; simpl; lia).
    rewrite length_replicate.
    replace (S i * m + j - m)%nat with (i * m + j)%nat by (simpl; lia).
    now apply IH.
Qed.

Lemma amin_Raise (a : ndarray) (e : exn) :
  amin a = Raise e -> e = ValueError /\ flat a = [].
Proof. unfold amin. destruct (flat a); [intros [= <-]; now split | discriminate]. Qed.

Lemma amax_Raise (a : ndarray) (e : exn) :
  amax a = Raise e -> e = ValueError /\ flat a = [].
Proof. unfold amax. destruct (flat a); [intros [= <-]; now split | discriminate]. Qed.

(** ** [meteo_contouring] *)

(** C7.  With one-dimensional axes of lengths [M] and [N] and a data grid of
    shape [(N, M)], a call that reaches the backend passes coordinate grids
    of shape [(N, M)], the shape of the data: row [i], column [j] of the
    longitudes is [longitudes[j]] and of the latitudes [latitudes[i]].  The
    call fails to reach the backend only where numpy raises: a bound is to be
    taken from empty data, or [steps] is negative. *)
Theorem meteo_contouring_mesh :
  forall {r : rounding} (data longitudes latitudes : ndarray) (contourf : bool)
         (vmin vmax : option Q) (steps : Z) (levels : option (list Q))
         (colors : option (list string)) (cm : colormap) (zorder : Z)
         (kw : kwargs) (M N : nat),
    shape longitudes = [M] -> shape latitudes = [N] ->
    wf_array longitudes -> wf_array latitudes ->
    shape data = [N; M] ->
    match meteo_contouring data longitudes latitudes contourf vmin vmax steps
            levels colors cm zorder kw with
    | Ok call =>
        shape (cc_lons call) = [N; M]
        /\ shape (cc_lats call) = [N; M]
        /\ shape (cc_data call) = [N; M]
        /\ (forall i j : nat, (i < N)%nat -> (j < M)%nat ->
              at2 (cc_lons call) i j = flat longitudes !! j
              /\ at2 (cc_lats call) i j = flat latitudes !! i)
    | Raise e =>
        e = ValueError
        /\ ((flat data = [] /\ (vmin = None \/ vmax = None))
            \/ (levels = None /\ (steps < 0)%Z))
    end.
Proof.
  intros * Hlon Hlat Hwlon Hwlat Hdata.
  unfold wf_array in Hwlon, Hwlat. rewrite Hlon in Hwlon. rewrite Hlat in Hwlat.
  simpl in Hwlon, Hwlat. rewrite Nat.mul_1_r in Hwlon, Hwlat.
  unfold meteo_contouring, mbind, result_bind, Py.bind, mret, result_ret.
  destruct (default_to vmin (amin data)) as [lo|e] eqn:Hlo.
  2:{ destruct vmin; [discriminate|]. simpl in Hlo.
      apply amin_Raise in Hlo as [-> Hempty]. auto. }
  destruct (default_to vmax (amax data)) as [hi|e] eqn:Hhi.
  2:{ destruct vmax; [discriminate|]. simpl in Hhi.
      apply amax_Raise in Hhi as [-> Hempty]. auto. }
  destruct (match levels with Some l => Ok l | None => linspace lo hi steps end)
    as [lv|e] eqn:Hlv.
  2:{ destruct levels; [discriminate|].
      apply linspace_Raise in Hlv as [-> Hneg]. auto. }
  unfold ndim. rewrite Hlon, Hdata. simpl.
  rewrite Hwlon, Hwlat. repeat split; try assumption.
  - unfold at2; simpl. rewrite <- Hwlon at 1.
    apply lookup_concat_replicate; lia.
  - unfold at2; simpl. now apply lookup_concat_rows.
Qed.

Lemma meteo_contouring_mesh_witness :
  match meteo_contouring (array2 2 3 [5; 6; 7; 8; 9; 10]%Q)
          (array1 [10; 20; 30]%Q) (array1 [1; 2]%Q) true None None 50 None
          None nipy_spectral 13 [] with
  | Ok call =>
      shape (cc_lons call) = [2; 3]%nat
      /\ shape (cc_lats call) = [2; 3]%nat
      /\ shape (cc_data call) = [2; 3]%nat
      /\ (forall i j : nat, (i < 2)%nat -> (j < 3)%nat ->
            at2 (cc_lons call) i j = flat (array1 [10; 20; 30]%Q) !! j
            /\ at2 (cc_lats call) i j = flat (array1 [1; 2]%Q) !! i)
  | Raise e =>
      e = ValueError
      /\ ((flat (array2 2 3 [5; 6; 7; 8; 9; 10]%Q) = []
           /\ (@None Q = None \/ @None Q = None))
          \/ (@None (list Q) = None /\ (50 < 0)%Z))
  end.
Proof.
  apply (meteo_contouring_mesh (array2 2 3 [5; 6; 7; 8; 9; 10]%Q)
           (array1 [10; 20; 30]%Q) (array1 [1; 2]%Q) true None None 50 None
           None nipy_spectral 13 [] 3 2); reflexivity.
Defined.

(** X4.  With data that is not empty and a count of steps that is not negative,
    [meteo_contouring] reaches the backend, with the data as it came and the
    filled or line variant as asked. *)
Theorem meteo_contouring_returns :
  forall {r : rounding} (data longitudes latitudes : ndarray) (contourf : bool)
         (vmin vmax : option Q) (steps : Z) (levels : option (list Q))
         (colors : option (list string)) (cm : colormap) (zorder : Z)
         (kw : kwargs),
    flat data <> [] ->
    (0 <= steps)%Z ->
    exists call,
      meteo_contouring data longitudes latitudes contourf vmin vmax steps
        levels colors cm zorder kw = Ok call
      /\ cc_data call = data
      /\ cc_filled call = contourf
      /\ cc_colors call = colors.
Proof.
  intros * Hdata Hsteps.
  destruct (amin_nonempty data Hdata) as [lo0 Hlo0].
  destruct (amax_nonempty data Hdata) as [hi0 Hhi0].
  assert (exists lo, default_to vmin (amin data) = Ok lo) as [lo Hlo]
    by (destruct vmin; simpl; eauto).
  assert (exists hi, default_to vmax (amax data) = Ok hi) as [hi Hhi]
    by (destruct vmax; simpl; eauto).
  destruct (linspace_nonneg lo hi steps Hsteps) as [lv Hlv].
  unfold meteo_contouring, mbind, result_bind, Py.bind.
  rewrite Hlo, Hhi.
  destruct levels; [|rewrite Hlv];
    (destruct ((ndim longitudes =? 1)%nat && (ndim data =? 2)%nat);
     [destruct (meshgrid longitudes latitudes)|]);
    eexists; repeat split; reflexivity.
Qed.

Lemma meteo_contouring_returns_witness :
  exists call,
    meteo_contouring (array2 1 2 [0; 1]%Q) (array1 [0; 1]%Q) (array1 [0]%Q)
      false None None 50 None None nipy_spectral 13 [] = Ok call
    /\ cc_data call = array2 1 2 [0; 1]%Q
    /\ cc_filled call = false
    /\ cc_colors call = None.
Proof.
  apply (meteo_contouring_returns (array2 1 2 [0; 1]%Q) (array1 [0; 1]%Q)
           (array1 [0]%Q) false None None 50 None None nipy_spectral 13 []);
    [discriminate | lia].
Defined.




(** In binary64 the four levels over [[0, 1]] are 0, the [float64] nearest
    to 1/3, twice that, and 1: the last gap is not the first. *)
Lemma meteo_contouring_levels_thirds :
  exists call,
    meteo_contouring (array2 1 2 [0; 1]%Q) (array1 [0; 1]%Q) (array1 [0]%Q)
      true None None 4 None None nipy_spectral 13 [] = Ok call
    /\ cc_levels call
       = [0; 6004799503160661 # 18014398509481984;
          6004799503160661 # 9007199254740992; 1]%Q
    /\ ~ evenly_spaced 0 1 4 (cc_levels call).
Proof.
  eexists. split; [vm_compute; reflexivity|]. split; [reflexivity|].
  intros (_ & _ & _ & Hgap).
  specialize (Hgap 2%nat _ _ eq_refl eq_refl). vm_compute in Hgap.
  discriminate Hgap.
Qed.

(** ** [adjust_contourparams]: the store *)

Section KeepsLists.

Context {A B : Type}.

Lemma keeps_ret (a : A) : keeps_lists (st_ret a).
Proof. intros h l items Hl. exact Hl. Qed.

Lemma keeps_bind (m : St A) (k : A -> St B) :
  keeps_lists m -> (forall a, keeps_lists (k a)) -> keeps_lists (st_bind m k).
Proof.
  intros Hm Hk h l items Hl. unfold st_bind.
  specialize (Hm h l items Hl). destruct (m h) as [h' [a|e]]; simpl in *.
  - now apply Hk.
  - exact Hm.
Qed.

End KeepsLists.

Lemma keeps_len (l : loc) : keeps_lists (len l).
Proof.
  intros h l' items Hl. unfold len.
  destruct (h !! l) as [[?|?]|]; exact Hl.
Qed.

Lemma keeps_getitem (l : loc) (i : nat) : keeps_lists (getitem l i).
Proof.
  intros h l' items Hl. unfold getitem.
  destruct (h !! l) as [[its|?]|]; [destruct (its !! i)| |]; exact Hl.
Qed.

Lemma keeps_new_list (its : list (option string)) : keeps_lists (new_list its).
Proof.
  intros h l items Hl. unfold new_list; simpl.
  rewrite lookup_insert_ne; [exact Hl|].
  intros Heq. apply (is_fresh (dom h)). rewrite Heq.
  apply elem_of_dom. eauto.
Qed.

Lemma keeps_call (coll : loc) (op : artist_op) : keeps_lists (call coll op).
Proof.
  intros h l items Hl. unfold call.
  destruct (h !! coll) as [[?|calls]|] eqn:Hcoll; simpl; try exact Hl.
  rewrite lookup_insert_ne; [exact Hl | congruence].
Qed.

Lemma keeps_adjust_one contours colors vis kw level coll :
  keeps_lists (adjust_one contours colors vis kw level coll).
Proof.
  unfold adjust_one. destruct (contains contours level).
  - apply keeps_bind; [intros h l items Hl; exact Hl|]. intros ind.
    apply keeps_bind; [apply keeps_getitem|]. intros color.
    apply keeps_bind; [apply keeps_call|]. intros _.
    destruct color; [apply keeps_call | apply keeps_ret].
  - destruct (negb vis); [apply keeps_call | apply keeps_ret].
Qed.

Lemma keeps_adjust_loop contours colors vis kw items :
  keeps_lists (adjust_loop contours colors vis kw items).
Proof.
  induction items as [|[level coll] rest IH]; simpl.
  - apply keeps_ret.
  - apply keeps_bind; [apply keeps_adjust_one | intros _; exact IH].
Qed.

Lemma keeps_broadcast_colors contours colors :
  keeps_lists (broadcast_colors contours colors).
Proof.
  unfold broadcast_colors. apply keeps_bind; [apply keeps_len|]. intros n.
  destruct (decide (length contours = n)); [apply keeps_ret|].
  apply keeps_bind; [apply keeps_getitem | intros c0; apply keeps_new_list].
Qed.

Lemma keeps_adjust_contourparams cm contours colors vis kw :
  keeps_lists (adjust_contourparams cm contours colors vis kw).
Proof.
  unfold adjust_contourparams.
  apply keeps_bind; [apply keeps_broadcast_colors|].
  intros l. apply keeps_adjust_loop.
Qed.

(** Lines 242-243 when the lengths differ and [colors] has a first element:
    the local name is rebound to a new list object, at an address the store
    did not use, holding that element once per contour. *)
Lemma broadcast_colors_differ (contours : list Q) (colors : loc) (h : heap)
    (c0 : option string) (rest : list (option string)) :
  h !! colors = Some (OList (c0 :: rest)) ->
  length contours <> length (c0 :: rest) ->
  broadcast_colors contours colors h
  = (<[fresh (dom h) := OList (replicate (length contours) c0)]> h,
     Ok (fresh (dom h)))
  /\ h !! fresh (dom h) = None.
Proof.
  intros Hcolors Hlen. split.
  - unfold broadcast_colors, st_bind, len, getitem. rewrite Hcolors.
    destruct (decide (length contours = length (c0 :: rest))); [contradiction|].
    rewrite Hcolors. reflexivity.
  - apply not_elem_of_dom, is_fresh.
Qed.

(** [contours.index(level)] after [level in contours] held. *)
Lemma contains_index (contours : list Q) (level : Q) :
  contains contours level = true ->
  exists i, index contours level = Ok i /\ (i < length contours)%nat.
Proof.
  unfold contains. induction contours as [|c rest IH]; simpl; [discriminate|].
  destruct (Qeq_bool c level); simpl.
  - intros _. exists O. split; [reflexivity | lia].
  - intros Hin. destruct (IH Hin) as (i & -> & Hi).
    exists (S i). split; [reflexivity | lia].
Qed.

(** A call on an artist succeeds, keeps the artists and touches no list. *)
Lemma call_artist (coll : loc) (op : artist_op) (h : heap) (calls : list artist_op) :
  h !! coll = Some (OArtist calls) ->
  call coll op h = (<[coll := OArtist (calls ++ [op])]> h, Ok tt).
Proof. intros Hcoll. unfold call. now rewrite Hcoll. Qed.

Lemma insert_artist_keeps (coll l : loc) (calls : list artist_op) (h : heap) :
  (exists c, h !! l = Some (OArtist c)) ->
  exists c, <[coll := OArtist calls]> h !! l = Some (OArtist c).
Proof.
  intros [c Hc]. destruct (decide (coll = l)) as [->|Hne].
  - rewrite lookup_insert_eq. eauto.
  - rewrite lookup_insert_ne by exact Hne. eauto.
Qed.

(** One turn of the loop with the one colour [c0]: on an artist it succeeds,
    and the collections stay artists. *)
Lemma recolor_one_Ok contours c0 vis kw level coll (h : heap) :
  (exists calls, h !! coll = Some (OArtist calls)) ->
  exists h',
    recolor_one contours c0 vis kw level coll h = (h', Ok tt)
    /\ (forall l, (exists c, h !! l = Some (OArtist c)) ->
                  exists c, h' !! l = Some (OArtist c)).
Proof.
  intros [calls Hcoll]. unfold recolor_one.
  destruct (contains contours level).
  - unfold st_bind. rewrite (call_artist _ _ _ _ Hcoll).
    destruct c0 as [c|].
    + erewrite call_artist by apply lookup_insert_eq.
      eexists; split; [reflexivity|]. intros l Hl.
      now do 2 apply insert_artist_keeps.
    + eexists; split; [reflexivity|]. intros l Hl.
      now apply insert_artist_keeps.
  - destruct (negb vis).
    + rewrite (call_artist _ _ _ _ Hcoll).
      eexists; split; [reflexivity|]. intros l Hl.
      now apply insert_artist_keeps.
    + eexists; split; [reflexivity|]. auto.
Qed.

(** With a colour list that holds [c0] once per contour, one turn of the
    source's loop is the turn with the one colour [c0]. *)
Lemma adjust_one_uniform contours colors c0 vis kw level coll (h : heap) :
  h !! colors = Some (OList (replicate (length contours) c0)) ->
  adjust_one contours colors vis kw level coll h
  = recolor_one contours c0 vis kw level coll h.
Proof.
  intros Hcolors. unfold adjust_one, recolor_one.
  destruct (contains contours level) eqn:Hin; [|reflexivity].
  destruct (contains_index _ _ Hin) as (i & Hi & Hlt).
  unfold st_bind at 1. rewrite Hi.
  unfold st_bind at 1. unfold getitem. rewrite Hcolors.
  now rewrite (lookup_replicate_2 _ _ _ Hlt).
Qed.

Lemma adjust_loop_uniform contours colors c0 vis kw items (h : heap) :
  h !! colors = Some (OList (replicate (length contours) c0)) ->
  Forall (fun it : Q * loc => exists calls, h !! it.2 = Some (OArtist calls)) items ->
  exists h',
    adjust_loop contours colors vis kw items h = (h', Ok tt)
    /\ recolor_all contours c0 vis kw items h = (h', Ok tt).
Proof.
  revert h. induction items as [|[level coll] rest IH]; intros h Hcolors Hart.
  - exists h. split; reflexivity.
  - apply Forall_cons in Hart as [Hcoll Hrest]. simpl in Hcoll.
    simpl. unfold st_bind.
    rewrite (adjust_one_uniform _ _ _ _ _ _ _ _ Hcolors).
    destruct (recolor_one_Ok contours c0 vis kw level coll h Hcoll)
      as (h1 & Hone & Hkeep).
    rewrite Hone. apply IH.
    + assert (keeps_lists (recolor_one contours c0 vis kw level coll)) as Hk.
      { unfold recolor_one. destruct (contains contours level).
        - apply keeps_bind; [apply keeps_call|]. intros _.
          destruct c0; [apply keeps_call | apply keeps_ret].
        - destruct (negb vis); [apply keeps_call | apply keeps_ret]. }
      specialize (Hk h colors _ Hcolors). now rewrite Hone in Hk.
    + eapply Forall_impl; [exact Hrest|]. intros it Hit. now apply Hkeep.
Qed.

(** ** [adjust_contourparams]: the claims *)

(** C9, as the claim states it, fails: with three contours and an empty list
    of colours the lengths differ and the call raises [IndexError] at
    [colors[0]]. *)
Lemma adjust_contourparams_empty_colors_raises :
  demo_store !! 2%positive = Some (OList [])
  /\ (adjust_contourparams demo_contours [1; 2; 3]%Q 2%positive true []
        demo_store).2 = Raise IndexError.
Proof. split; reflexivity. Qed.

(** C9 (amended).  Where the lengths of [contours] and [colors] differ and
    [colors] is not empty, the call does not raise: it runs as the loop that
    uses the first colour for every listed level, on the store extended with
    the new list that holds that colour once per contour.  With an empty
    [colors] and contours to adjust, it raises [IndexError] at [colors[0]]
    and leaves the store as it was. *)
Theorem adjust_contourparams_broadcasts :
  forall (cm : contour_set) (contours : list Q) (colors : loc)
         (othercontours_visible : bool) (kw : kwargs) (h : heap),
    (forall (c0 : option string) (rest : list (option string)),
        h !! colors = Some (OList (c0 :: rest)) ->
        length contours <> length (c0 :: rest) ->
        artists h (cs_collections cm) ->
        exists h',
          adjust_contourparams cm contours colors othercontours_visible kw h
          = (h', Ok tt)
          /\ recolor_all contours c0 othercontours_visible kw
               (zip (cs_levels cm) (cs_collections cm))
               (<[fresh (dom h) := OList (replicate (length contours) c0)]> h)
             = (h', Ok tt))
    /\ (h !! colors = Some (OList []) ->
        contours <> [] ->
        adjust_contourparams cm contours colors othercontours_visible kw h
        = (h, Raise IndexError)).
Proof.
  intros. split.
  - intros c0 rest Hcolors Hlen Hart.
    destruct (broadcast_colors_differ contours colors h c0 rest Hcolors Hlen)
      as [Hb Hfresh].
    unfold adjust_contourparams, st_bind. rewrite Hb.
    apply adjust_loop_uniform.
    + apply lookup_insert_eq.
    + unfold artists in Hart. rewrite Forall_forall in Hart.
      apply Forall_forall. intros [level coll] Hin. simpl.
      destruct (Hart coll) as [c Hc].
      { now apply elem_of_zip_r in Hin. }
      exists c. rewrite lookup_insert_ne; [exact Hc|].
      intros Heq. apply (is_fresh (dom h)). rewrite Heq.
      apply elem_of_dom. eauto.
  - intros Hcolors Hne.
    unfold adjust_contourparams, broadcast_colors, st_bind, len, getitem.
    rewrite Hcolors. destruct contours as [|c contours]; [contradiction|].
    simpl. rewrite Hcolors. reflexivity.
Qed.

Lemma adjust_contourparams_broadcasts_witness :
  exists h',
    adjust_contourparams demo_contours [1; 2; 3]%Q default_colors true []
      demo_store = (h', Ok tt)
    /\ recolor_all [1; 2; 3]%Q None true []
         (zip (cs_levels demo_contours) (cs_collections demo_contours))
         (<[fresh (dom demo_store) := OList (replicate (length [1; 2; 3]%Q) None)]>
            demo_store)
       = (h', Ok tt).
Proof.
  apply (proj1 (adjust_contourparams_broadcasts demo_contours [1; 2; 3]%Q
                  default_colors true [] demo_store) None []).
  - reflexivity.
  - simpl. lia.
  - repeat constructor; eexists; reflexivity.
Defined.

(** C10.  [adjust_contourparams] mutates no list object: every list of the
    store, the [colors] argument and the shared default [[None]] among them,
    is the same after the call as before, whether the call returns or
    raises.  Where the lengths differ, the local name is rebound to a new
    list at an address the store did not use. *)
Theorem adjust_contourparams_keeps_colors :
  forall (cm : contour_set) (contours : list Q) (colors : loc)
         (othercontours_visible : bool) (kw : kwargs) (h : heap),
    keeps_lists (adjust_contourparams cm contours colors othercontours_visible kw)
    /\ (has_default h ->
        has_default
          (adjust_contourparams cm contours colors othercontours_visible kw h).1)
    /\ (forall (c0 : option string) (rest : list (option string)),
           h !! colors = Some (OList (c0 :: rest)) ->
           length contours <> length (c0 :: rest) ->
           exists l,
             h !! l = None
             /\ broadcast_colors contours colors h
                = (<[l := OList (replicate (length contours) c0)]> h, Ok l)).
Proof.
  intros. split; [|split].
  - apply keeps_adjust_contourparams.
  - unfold has_default. apply keeps_adjust_contourparams.
  - intros c0 rest Hcolors Hlen. exists (fresh (dom h)).
    destruct (broadcast_colors_differ contours colors h c0 rest Hcolors Hlen).
    now split.
Qed.

Lemma adjust_contourparams_keeps_colors_witness :
  has_default
    (adjust_contourparams demo_contours [1; 2; 3]%Q default_colors false
       [("linewidth", "2")] demo_store).1.
Proof.
  apply (adjust_contourparams_keeps_colors demo_contours [1; 2; 3]%Q
           default_colors false [("linewidth", "2")] demo_store).
  reflexivity.
Defined.

(** ** More on the contour levels *)

(** X5.  The levels [meteo_contouring] builds need not be strictly
    increasing, even with [vmin < vmax]: with data whose minimum is 1 and
    whose maximum is [1 + 2^-52], the next [float64], and three steps, the
    middle level [1 + 2^-53] rounds to 1, and the levels passed are 1, 1 and
    [1 + 2^-52]. *)
Theorem meteo_contouring_levels_may_repeat :
  exists call,
    meteo_contouring
      (array2 1 2 [1; 4503599627370497 # 4503599627370496]%Q)
      (array1 [0; 1]%Q) (array1 [0]%Q) true None None 3 None None
      nipy_spectral 13 [] = Ok call
    /\ amin (cc_data call) = Ok 1%Q
    /\ amax (cc_data call) = Ok (4503599627370497 # 4503599627370496)%Q
    /\ (1 < 4503599627370497 # 4503599627370496)%Q
    /\ cc_levels call = [1; 1; 4503599627370497 # 4503599627370496]%Q.
Proof.
  eexists. split; [vm_compute; reflexivity|]. repeat split.
Qed.

(** X6.  [meteo_contouring] reaches the backend exactly when each bound is
    supplied or the data is not empty, and the levels are supplied or
    [steps] is not negative.  Supplied levels do not spare the bounds: they
    are taken from the data all the same. *)
Theorem meteo_contouring_returns_iff :
  forall {r : rounding} (data longitudes latitudes : ndarray) (contourf : bool)
         (vmin vmax : option Q) (steps : Z) (levels : option (list Q))
         (colors : option (list string)) (cm : colormap) (zorder : Z)
         (kw : kwargs),
    (exists call,
        meteo_contouring data longitudes latitudes contourf vmin vmax steps
          levels colors cm zorder kw = Ok call)
    <-> ((vmin <> None \/ flat data <> [])
         /\ (vmax <> None \/ flat data <> [])
         /\ (levels <> None \/ (0 <= steps)%Z)).
Proof.
  intros. unfold meteo_contouring, mbind, result_bind, Py.bind. split.
  - intros [call Hcall].
    destruct (default_to vmin (amin data)) as [lo|e] eqn:Hlo; [|discriminate].
    destruct (default_to vmax (amax data)) as [hi|e] eqn:Hhi; [|discriminate].
    split; [|split].
    + destruct vmin; [left; discriminate|]. right. simpl in Hlo.
      unfold amin in Hlo. destruct (flat data); [discriminate | discriminate].
    + destruct vmax; [left; discriminate|]. right. simpl in Hhi.
      unfold amax in Hhi. destruct (flat data); [discriminate | discriminate].
    + destruct levels; [left; discriminate|]. right.
      destruct (linspace lo hi steps) as [l|e] eqn:Hl; [|discriminate].
      unfold linspace in Hl.
      destruct (Z.ltb_spec steps 0); [discriminate | assumption].
  - intros (Hmin & Hmax & Hlv).
    assert (exists lo, default_to vmin (amin data) = Ok lo) as [lo Hlo].
    { destruct vmin; simpl; [eauto|]. destruct Hmin as [?|Hd]; [congruence|].
      now apply amin_nonempty. }
    assert (exists hi, default_to vmax (amax data) = Ok hi) as [hi Hhi].
    { destruct vmax; simpl; [eauto|]. destruct Hmax as [?|Hd]; [congruence|].
      now apply amax_nonempty. }
    rewrite Hlo, Hhi.
    assert (exists l, match levels with
                      | Some l => Ok l
                      | None => linspace lo hi steps
                      end = Ok l) as [l Hl].
    { destruct levels; [eauto|]. destruct Hlv as [?|Hs]; [congruence|].
      now apply linspace_nonneg. }
    rewrite Hl.
    destruct ((ndim longitudes =? 1)%nat && (ndim data =? 2)%nat);
      [destruct (meshgrid longitudes latitudes)|]; eexists; reflexivity.
Qed.

(** ** The boundary branch of [traj_scatter], when it is taken *)



(** ** [adjust_contourparams] with one colour per contour *)

(** Lines 242-243 when the lengths agree: [colors] stays the argument. *)
Lemma broadcast_colors_same (contours : list Q) (colors : loc) (h : heap)
    (items : list (option string)) :
  h !! colors = Some (OList items) ->
  length contours = length items ->
  broadcast_colors contours colors h = (h, Ok colors).
Proof.
  intros Hcolors Hlen. unfold broadcast_colors, st_bind, len.
  rewrite Hcolors. now destruct (decide (length contours = length items)).
Qed.

(** One turn of the loop on an artist, with a colour for every contour. *)
Lemma adjust_one_effect contours colors cs vis kw level coll (h : heap) calls :
  h !! colors = Some (OList cs) ->
  length contours = length cs ->
  h !! coll = Some (OArtist calls) ->
  adjust_one contours colors vis kw level coll h
  = (<[coll := OArtist (calls ++ turn_calls contours cs vis kw level)]> h, Ok tt).
Proof.
  intros Hcolors Hlen Hcoll. unfold adjust_one, turn_calls.
  destruct (contains contours level) eqn:Hin.
  - destruct (contains_index _ _ Hin) as (i & Hi & Hlt).
    unfold st_bind at 1. rewrite Hi.
    unfold st_bind at 1. unfold getitem. rewrite Hcolors.
    destruct (lookup_lt_is_Some_2 cs i) as [c Hc]; [lia|]. rewrite Hc.
    unfold st_bind. rewrite (call_artist _ _ _ _ Hcoll).
    destruct c as [c|].
    + erewrite call_artist by apply lookup_insert_eq.
      now rewrite insert_insert_eq, <- app_assoc.
    + reflexivity.
  - destruct (negb vis).
    + now apply call_artist.
    + unfold st_ret. rewrite app_nil_r. now rewrite insert_id.
Qed.

Lemma adjust_loop_effect contours colors cs vis kw items (h : heap) :
  h !! colors = Some (OList cs) ->
  length contours = length cs ->
  Forall (fun it : Q * loc => exists calls, h !! it.2 = Some (OArtist calls)) items ->
  NoDup items.*2 ->
  exists h',
    adjust_loop contours colors vis kw items h = (h', Ok tt)
    /\ dom h' = dom h
    /\ (forall l, l ∉ items.*2 -> h' !! l = h !! l)
    /\ (forall level coll calls,
           (level, coll) ∈ items ->
           h !! coll = Some (OArtist calls) ->
           h' !! coll
           = Some (OArtist (calls ++ turn_calls contours cs vis kw level))).
Proof.
  revert h.
  induction items as [|[level coll] rest IH]; intros h Hcolors Hlen Hart Hnd.
  - exists h. repeat split; try reflexivity.
    intros level coll calls Hin. now apply elem_of_nil in Hin.
  - apply Forall_cons in Hart as [[calls Hcoll] Hrest]. simpl in Hcoll.
    rewrite fmap_cons in Hnd. apply NoDup_cons in Hnd as [Hnotin Hnd].
    simpl in Hnotin. simpl. unfold st_bind.
    rewrite (adjust_one_effect _ _ _ _ _ _ _ _ _ Hcolors Hlen Hcoll).
    set (h1 := <[coll := OArtist (calls ++ turn_calls contours cs vis kw level)]> h).
    assert (colors <> coll) as Hne by congruence.
    destruct (IH h1) as (h' & Hloop & Hdom & Hframe & Heffect).
    { unfold h1. rewrite lookup_insert_ne by congruence. exact Hcolors. }
    { exact Hlen. }
    { eapply Forall_impl; [exact Hrest|]. intros it Hit.
      unfold h1. now apply insert_artist_keeps. }
    { exact Hnd. }
    exists h'. split; [exact Hloop|]. split; [|split].
    + rewrite Hdom. unfold h1. apply dom_insert_lookup_L. eauto.
    + intros l Hl.
      apply not_elem_of_cons in Hl as [Hl1 Hl2].
      rewrite (Hframe l Hl2). unfold h1. now rewrite lookup_insert_ne.
    + intros level' coll' calls' Hin Hcoll'.
      apply elem_of_cons in Hin as [[= -> ->]|Hin].
      * rewrite (Hframe coll Hnotin). unfold h1. rewrite lookup_insert_eq.
        congruence.
      * assert (coll' ∈ rest.*2) as Hin2
          by (apply (list_elem_of_fmap_2 snd) in Hin; exact Hin).
        assert (coll' <> coll) as Hne' by (intros ->; contradiction).
        apply Heffect; [exact Hin|].
        unfold h1. now rewrite lookup_insert_ne.
Qed.

Lemma zip_snd_sublist {A B} (l : list A) (k : list B) : sublist (zip l k).*2 k.
Proof.
  revert k. induction l as [|x l IH]; intros k; simpl.
  - apply sublist_nil_l.
  - destruct k as [|y k]; simpl; [constructor|]. constructor. apply IH.
Qed.

(** X8.  With as many colours as contours, every collection an artist and
    no collection listed twice, [adjust_contourparams] returns and creates
    no object; each collection paired with a level gets, after the calls it
    already had, the calls of its own turn ([turn_calls]): the keywords and
    then its colour when the level is listed, [set_alpha(0)] when it is not
    and the others are hidden, nothing otherwise; every other object is
    left as it was. *)
Theorem adjust_contourparams_per_collection :
  forall (cm : contour_set) (contours : list Q) (colors : loc)
         (othercontours_visible : bool) (kw : kwargs) (h : heap)
         (cs : list (option string)),
    h !! colors = Some (OList cs) ->
    length contours = length cs ->
    artists h (cs_collections cm) ->
    NoDup (cs_collections cm) ->
    exists h',
      adjust_contourparams cm contours colors othercontours_visible kw h
      = (h', Ok tt)
      /\ dom h' = dom h
      /\ (forall (k : nat) (level : Q) (coll : loc) (calls : list artist_op),
             cs_levels cm !! k = Some level ->
             cs_collections cm !! k = Some coll ->
             h !! coll = Some (OArtist calls) ->
             h' !! coll
             = Some (OArtist
                       (calls ++ turn_calls contours cs othercontours_visible
                                   kw level)))
      /\ (forall l : loc,
             l ∉ (zip (cs_levels cm) (cs_collections cm)).*2 ->
             h' !! l = h !! l).
Proof.
  intros * Hcolors Hlen Hart Hnd.
  unfold adjust_contourparams, st_bind.
  rewrite (broadcast_colors_same _ _ _ _ Hcolors Hlen).
  destruct (adjust_loop_effect contours colors cs othercontours_visible kw
              (zip (cs_levels cm) (cs_collections cm)) h Hcolors Hlen)
    as (h' & Hloop & Hdom & Hframe & Heffect).
  - unfold artists in Hart. rewrite Forall_forall in Hart.
    apply Forall_forall. intros [level coll] Hin. simpl.
    apply Hart. now apply elem_of_zip_r in Hin.
  - exact (sublist_NoDup _ _ Hnd (zip_snd_sublist _ _)).
  - exists h'. split; [exact Hloop|]. split; [exact Hdom|]. split; [|exact Hframe].
    intros k level coll calls Hlevel Hcoll Hcalls.
    apply Heffect; [|exact Hcalls].
    apply (list_elem_of_lookup_2 _ k). apply lookup_zip_with_Some. eauto.
Qed.

Lemma adjust_contourparams_per_collection_witness :
  exists h',
    adjust_contourparams demo_contours [2; 7]%Q 3%positive false
      [("linewidth", "2")] demo_store = (h', Ok tt)
    /\ dom h' = dom demo_store
    /\ (forall (k : nat) (level : Q) (coll : loc) (calls : list artist_op),
           cs_levels demo_contours !! k = Some level ->
           cs_collections demo_contours !! k = Some coll ->
           demo_store !! coll = Some (OArtist calls) ->
           h' !! coll
           = Some (OArtist
                     (calls ++ turn_calls [2; 7]%Q [Some "red"; None] false
                                 [("linewidth", "2")] level)))
    /\ (forall l : loc,
           l ∉ (zip (cs_levels demo_contours) (cs_collections demo_contours)).*2 ->
           h' !! l = demo_store !! l).
Proof.
  apply (adjust_contourparams_per_collection demo_contours [2; 7]%Q 3%positive
           false [("linewidth", "2")] demo_store [Some "red"; None]).
  - reflexivity.
  - reflexivity.
  - repeat constructor; eexists; reflexivity.
  - apply NoDup_cons_2; [|apply NoDup_singleton].
    intros Hin%list_elem_of_singleton. discriminate Hin.
Defined.

(** ** The colorbar helpers *)

(** [H : c ∈ [c1; ...; cn]] with [c] different from every [ci]. *)
Ltac not_listed H :=
  repeat (apply elem_of_cons in H as [H|H]; [discriminate H|]);
  now apply elem_of_nil in H.

Ltac cbar_unfold :=
  unfold make_cbar, make_cax_cbar, edit_cbar_kwargs, edit_cbar, reverse,
    mbind, traced_bind, tbind, mret, traced_ret, tret, tlift, emit;
  cbn [calls returned].

(** No call of [edit_cbar] inverts an axis. *)
Lemma edit_cbar_kwargs_no_inversion (kw : gmap string pyval) (c : cbar_call) :
  c ∈ calls (edit_cbar_kwargs kw) -> ~ inverts c.
Proof.
  cbar_unfold. intros Hin [-> | ->];
    destruct (bool_decide _); cbn [calls returned] in Hin;
    [ | now apply elem_of_nil in Hin | | now apply elem_of_nil in Hin ];
    destruct (is_none (kwarg kw "divisions" (VNum 5)));
    destruct (subscript (kwarg kw "tick_dim" (VTuple [VNum 4; VNum 2])) 0);
    destruct (subscript (kwarg kw "tick_dim" (VTuple [VNum 4; VNum 2])) 1);
    destruct (is_none (kwarg kw "cbar_label" VNone));
    cbn in Hin; not_listed Hin.
Qed.

Lemma edit_cbar_kwargs_rejects (kw : gmap string pyval) :
  ~ edit_cbar_accepts kw -> edit_cbar_kwargs kw = Traced [] (Raise TypeError).
Proof.
  intros Hno. unfold edit_cbar_kwargs.
  rewrite bool_decide_eq_false_2 by exact Hno. reflexivity.
Qed.

(** X9.  Which axis [make_cbar] and [make_cax_cbar] invert.  Without
    [reverse_cbar] no call inverts an axis.  With it, once the colorbar is
    made, exactly one call does, right after the colorbar's creation: the x
    axis when [orientation] is the constant ['horizontal'] itself, the y axis
    for every other object, be it ['vertical'] or a string built at run time
    that reads ['horizontal']. *)
Theorem cbar_reversal :
  forall (fig data ax : handle) (rect extend : pyval) (orientation : pystr)
         (cbar_size : pyval) (kw : gmap string pyval),
    (forall c,
        c ∈ calls (make_cbar data ax orientation cbar_size false kw)
        \/ c ∈ calls (make_cax_cbar fig rect data orientation false extend kw) ->
        ~ inverts c)
    /\ (forall inversion,
           inversion = (if py_is orientation lit_horizontal then InvertXaxis
                        else InvertYaxis) ->
           (forall aspect shrink,
               subscript cbar_size 0 = Ok aspect ->
               subscript cbar_size 1 = Ok shrink ->
               exists rest,
                 calls (make_cbar data ax orientation cbar_size true kw)
                 = PltColorbar data ax orientation aspect shrink
                     :: inversion :: rest
                 /\ (forall c, c ∈ rest -> ~ inverts c))
           /\ (exists rest,
                  calls (make_cax_cbar fig rect data orientation true extend kw)
                  = FigAddAxes fig rect
                      :: FigColorbar fig data orientation extend
                      :: inversion :: rest
                  /\ (forall c, c ∈ rest -> ~ inverts c)))
    /\ (oid orientation <> oid lit_horizontal ->
        py_is orientation lit_horizontal = false).
Proof.
  intros. split; [|split].
  - intros c [Hin|Hin] Hinv.
    + revert Hin. unfold make_cbar, reverse, mbind, traced_bind, tbind, tlift, emit.
      cbn [calls returned].
      destruct (subscript cbar_size 0); cbn [calls returned];
        [|intros Hin; now apply elem_of_nil in Hin].
      destruct (subscript cbar_size 1); cbn [calls returned];
        [|intros Hin; now apply elem_of_nil in Hin].
      destruct (returned (edit_cbar_kwargs kw)) eqn:Hr; cbn [calls returned app];
        intros Hin; apply elem_of_cons in Hin as [->|Hin];
        try (destruct Hinv; discriminate);
        now apply (edit_cbar_kwargs_no_inversion kw c).
    + revert Hin.
      unfold make_cax_cbar, reverse, mbind, traced_bind, tbind, tlift, emit.
      cbn [calls returned app].
      destruct (returned (edit_cbar_kwargs kw)) eqn:Hr; cbn [calls returned app];
        intros Hin; apply elem_of_cons in Hin as [->|Hin];
        try (destruct Hinv; discriminate);
        apply elem_of_cons in Hin as [->|Hin];
        try (destruct Hinv; discriminate);
        now apply (edit_cbar_kwargs_no_inversion kw c).
  - intros inversion ->. split.
    + intros aspect shrink Ha Hs. exists (calls (edit_cbar_kwargs kw)).
      split; [|apply edit_cbar_kwargs_no_inversion].
      unfold make_cbar, reverse, mbind, traced_bind, tbind, tlift, emit.
      cbn [calls returned]. rewrite Ha. cbn [calls returned]. rewrite Hs.
      cbn [calls returned app].
      destruct (py_is orientation lit_horizontal); cbn [calls returned app];
        destruct (returned (edit_cbar_kwargs kw)); reflexivity.
    + exists (calls (edit_cbar_kwargs kw)).
      split; [|apply edit_cbar_kwargs_no_inversion].
      unfold make_cax_cbar, reverse, mbind, traced_bind, tbind, tlift, emit.
      cbn [calls returned app].
      destruct (py_is orientation lit_horizontal); cbn [calls returned app];
        destruct (returned (edit_cbar_kwargs kw)); reflexivity.
  - apply py_is_other.
Qed.

Lemma cbar_reversal_witness :
  exists rest,
    calls (make_cbar 1%positive 2%positive (PyStr 9 "horizontal")
             default_cbar_size true ∅)
    = PltColorbar 1%positive 2%positive (PyStr 9 "horizontal") (VNum 20) (VNum 1)
        :: InvertYaxis :: rest
    /\ (forall c, c ∈ rest -> ~ inverts c).
Proof.
  apply (proj1 (proj1 (proj2 (cbar_reversal 3%positive 1%positive 2%positive
                                (VTuple []) (VStr "neither")
                                (PyStr 9 "horizontal") default_cbar_size ∅))
                  InvertYaxis eq_refl) (VNum 20) (VNum 1));
    reflexivity.
Defined.

(** X10.  A keyword that is no parameter of [edit_cbar] makes [make_cbar]
    and [make_cax_cbar] raise [TypeError], and only after the colorbar (and
    for [make_cax_cbar] the new axes) has been created and the axis
    inverted: nothing is returned to the caller, and [edit_cbar] makes no
    call.  [cbar_size], which the docstring of [make_cax_cbar] lists, is such
    a keyword. *)
Theorem cbar_unknown_keyword :
  forall (fig data ax : handle) (rect extend : pyval) (orientation : pystr)
         (cbar_size aspect shrink : pyval) (reverse_cbar : bool)
         (kw : gmap string pyval) (key : string) (v : pyval),
    kw !! key = Some v ->
    key ∉ edit_cbar_keywords ->
    subscript cbar_size 0 = Ok aspect ->
    subscript cbar_size 1 = Ok shrink ->
    make_cbar data ax orientation cbar_size reverse_cbar kw
    = Traced (PltColorbar data ax orientation aspect shrink
                :: calls (reverse reverse_cbar orientation))
        (Raise TypeError)
    /\ make_cax_cbar fig rect data orientation reverse_cbar extend kw
       = Traced (FigAddAxes fig rect :: FigColorbar fig data orientation extend
                   :: calls (reverse reverse_cbar orientation))
           (Raise TypeError)
    /\ "cbar_size" ∉ edit_cbar_keywords.
Proof.
  intros * Hkey Hunknown Ha Hs.
  assert (edit_cbar_kwargs kw = Traced [] (Raise TypeError)) as Hreject.
  { apply edit_cbar_kwargs_rejects. intros Hall.
    apply Hunknown. exact (Hall key v Hkey). }
  split; [|split].
  - unfold make_cbar, mbind, traced_bind, tbind, tlift, emit.
    cbn [calls returned]. rewrite Ha. cbn [calls returned]. rewrite Hs.
    cbn [calls returned]. rewrite Hreject.
    unfold reverse, mret, traced_ret, tret, emit.
    destruct reverse_cbar; [destruct (py_is orientation lit_horizontal)|];
      reflexivity.
  - unfold make_cax_cbar, mbind, traced_bind, tbind, tlift, emit.
    cbn [calls returned]. rewrite Hreject.
    unfold reverse, mret, traced_ret, tret, emit.
    destruct reverse_cbar; [destruct (py_is orientation lit_horizontal)|];
      reflexivity.
  - intros Hin. unfold edit_cbar_keywords in Hin. not_listed Hin.
Qed.

Lemma cbar_unknown_keyword_witness :
  make_cax_cbar 1%positive (VTuple [VNum 0; VNum 0; VNum 1; VNum 1]) 2%positive
    lit_horizontal true (VStr "neither")
    (<["cbar_size" := VTuple [VNum 20; VNum 1]]> ∅)
  = Traced (FigAddAxes 1%positive (VTuple [VNum 0; VNum 0; VNum 1; VNum 1])
              :: FigColorbar 1%positive 2%positive lit_horizontal (VStr "neither")
              :: calls (reverse true lit_horizontal))
      (Raise TypeError).
Proof.
  apply (cbar_unknown_keyword 1%positive 2%positive 3%positive
           (VTuple [VNum 0; VNum 0; VNum 1; VNum 1]) (VStr "neither")
           lit_horizontal default_cbar_size (VNum 20) (VNum 1) true
           (<["cbar_size" := VTuple [VNum 20; VNum 1]]> ∅) "cbar_size"
           (VTuple [VNum 20; VNum 1])).
  - reflexivity.
  - intros Hin. unfold edit_cbar_keywords in Hin. not_listed Hin.
  - reflexivity.
  - reflexivity.
Defined.

(** When [edit_cbar] under a [**kwargs] dict returns, and what it has done
    when it does not. *)
Lemma edit_cbar_kwargs_returns (kw : gmap string pyval) :
  returned (edit_cbar_kwargs kw) = Ok tt
  <-> edit_cbar_accepts kw /\ has_two (tick_dim_of kw).
Proof.
  unfold edit_cbar_kwargs, has_two, tick_dim_of, edit_cbar_accepts.
  destruct (bool_decide_reflect
              (map_Forall (fun k _ => k ∈ edit_cbar_keywords) kw)) as [Hall|Hno].
  - unfold edit_cbar, mbind, traced_bind, tbind, mret, traced_ret, tret, tlift, emit.
    destruct (is_none (kwarg kw "divisions" (VNum 5)));
      cbn [calls returned];
      destruct (subscript (kwarg kw "tick_dim" (VTuple [VNum 4; VNum 2])) 0)
        as [a|e0]; cbn [calls returned];
      destruct (subscript (kwarg kw "tick_dim" (VTuple [VNum 4; VNum 2])) 1)
        as [b|e1]; cbn [calls returned];
      destruct (is_none (kwarg kw "cbar_label" VNone)); cbn [calls returned];
      split;
      try (intros _; split; [exact Hall | now exists a, b]);
      try (intros _; reflexivity);
      try discriminate;
      intros (_ & a' & b' & Ha & Hb); discriminate.
  - cbn [returned tlift]. split; [discriminate | tauto].
Qed.

Lemma edit_cbar_kwargs_finishes (kw : gmap string pyval) :
  match returned (edit_cbar_kwargs kw) with
  | Ok _ => exists before, calls (edit_cbar_kwargs kw)
                           = before ++ [CbarSetAlpha 1; DrawAll]
  | Raise _ => forall c, c ∈ calls (edit_cbar_kwargs kw) -> ~ finishes c
  end.
Proof.
  unfold edit_cbar_kwargs.
  destruct (bool_decide (map_Forall (fun k _ => k ∈ edit_cbar_keywords) kw)).
  - unfold edit_cbar, mbind, traced_bind, tbind, mret, traced_ret, tret, tlift, emit.
    destruct (is_none (kwarg kw "divisions" (VNum 5)));
      cbn [calls returned];
      destruct (subscript (kwarg kw "tick_dim" (VTuple [VNum 4; VNum 2])) 0)
        as [a|e0]; cbn [calls returned];
      destruct (subscript (kwarg kw "tick_dim" (VTuple [VNum 4; VNum 2])) 1)
        as [b|e1]; cbn [calls returned];
      destruct (is_none (kwarg kw "cbar_label" VNone)); cbn [calls returned app];
      try (intros c Hin Hfin;
           repeat (apply elem_of_cons in Hin as [->|Hin]; [exact Hfin|]);
           now apply elem_of_nil in Hin).
    + now exists [TickParams (kwarg kw "tick_fs" (VNum 16))
                    (kwarg kw "tick_dir" (VStr "out")) a b; UpdateTicks].
    + now exists [TickParams (kwarg kw "tick_fs" (VNum 16))
                    (kwarg kw "tick_dir" (VStr "out")) a b; UpdateTicks;
                  SetLabel (kwarg kw "cbar_label" VNone)
                    (kwarg kw "labelpad" (VNum 24))
                    (kwarg kw "label_fs" (VNum 18))
                    (kwarg kw "rotation" (VNum 0))].
    + now exists [SetLocator (kwarg kw "divisions" (VNum 5));
                  TickParams (kwarg kw "tick_fs" (VNum 16))
                    (kwarg kw "tick_dir" (VStr "out")) a b; UpdateTicks].
    + now exists [SetLocator (kwarg kw "divisions" (VNum 5));
                  TickParams (kwarg kw "tick_fs" (VNum 16))
                    (kwarg kw "tick_dir" (VStr "out")) a b; UpdateTicks;
                  SetLabel (kwarg kw "cbar_label" VNone)
                    (kwarg kw "labelpad" (VNum 24))
                    (kwarg kw "label_fs" (VNum 18))
                    (kwarg kw "rotation" (VNum 0))].
  - cbn [calls returned tlift]. intros c Hin. now apply elem_of_nil in Hin.
Qed.

(** X11.  [make_cbar] returns exactly when [cbar_size] has two items,
    every keyword is a parameter of [edit_cbar] and [tick_dim] has two
    items; its last two calls are then [set_alpha(1)] and [draw_all()].
    When [cbar_size] has fewer than two items it raises before any call: no
    colorbar is made.  When it raises later, the colorbar exists but neither
    ticks, label, alpha nor drawing have been touched. *)
Theorem make_cbar_outcomes :
  forall (data ax : handle) (orientation : pystr) (cbar_size : pyval)
         (reverse_cbar : bool) (kw : gmap string pyval),
    let t := make_cbar data ax orientation cbar_size reverse_cbar kw in
    (returned t = Ok tt
     <-> has_two cbar_size /\ edit_cbar_accepts kw /\ has_two (tick_dim_of kw))
    /\ (returned t = Ok tt ->
        exists before, calls t = before ++ [CbarSetAlpha 1; DrawAll])
    /\ (~ has_two cbar_size -> calls t = [] /\ returned t <> Ok tt)
    /\ (has_two cbar_size -> returned t <> Ok tt ->
        (exists aspect shrink rest,
            calls t = PltColorbar data ax orientation aspect shrink :: rest)
        /\ (forall c, c ∈ calls t -> ~ finishes c)).
Proof.
  intros. subst t.
  pose proof (edit_cbar_kwargs_returns kw) as Hret.
  pose proof (edit_cbar_kwargs_finishes kw) as Hfin.
  unfold make_cbar, mbind, traced_bind, tbind, tlift, emit, has_two in *.
  cbn [calls returned].
  destruct (subscript cbar_size 0) as [a|e0]; cbn [calls returned].
  2:{ split; [|split; [|split]].
      - split; [discriminate|]. intros ((a & b & Ha & _) & _). discriminate.
      - discriminate.
      - intros _. split; [reflexivity | discriminate].
      - intros (a & b & Ha & _). discriminate. }
  destruct (subscript cbar_size 1) as [s|e1]; cbn [calls returned].
  2:{ split; [|split; [|split]].
      - split; [discriminate|]. intros ((a' & b & _ & Hb) & _). discriminate.
      - discriminate.
      - intros _. split; [reflexivity | discriminate].
      - intros (a' & b & _ & Hb). discriminate. }
  assert (forall c, c ∈ calls (reverse reverse_cbar orientation) -> ~ finishes c)
    as Hrev.
  { intros c. unfold reverse, mret, traced_ret, tret, emit.
    destruct reverse_cbar; [destruct (py_is orientation lit_horizontal)|];
      cbn [calls]; intros Hin Hf;
      repeat (apply elem_of_cons in Hin as [->|Hin]; [exact Hf|]);
      now apply elem_of_nil in Hin. }
  assert (returned (reverse reverse_cbar orientation) = Ok tt) as Hrevok.
  { unfold reverse, mret, traced_ret, tret, emit.
    destruct reverse_cbar; [destruct (py_is orientation lit_horizontal)|];
      reflexivity. }
  rewrite Hrevok. cbn [calls returned].
  destruct (returned (edit_cbar_kwargs kw)) as [[]|e] eqn:Hr; cbn [calls returned].
  - split; [|split; [|split]].
    + split; [|reflexivity]. intros _. split; [now exists a, s|].
      now apply Hret.
    + intros _. destruct Hfin as [before Hbefore]. rewrite Hbefore.
      exists (PltColorbar data ax orientation a s
                :: calls (reverse reverse_cbar orientation) ++ before).
      cbn [app]. now rewrite <- !app_assoc.
    + intros Hno. exfalso. apply Hno. now exists a, s.
    + intros _ Hne. now exfalso.
  - split; [|split; [|split]].
    + split; [discriminate|]. intros (_ & Hacc). apply Hret in Hacc. discriminate.
    + discriminate.
    + intros Hno. exfalso. apply Hno. now exists a, s.
    + intros _ _. split; [eauto|].
      intros c Hin Hf. cbn [app] in Hin.
      apply elem_of_cons in Hin as [->|Hin]; [exact Hf|].
      apply elem_of_app in Hin as [Hin|Hin];
        [now apply (Hrev c) | now apply (Hfin c)].
Qed.

Lemma make_cbar_outcomes_witness :
  calls (make_cbar 1%positive 2%positive lit_horizontal (VTuple [VNum 20]) true ∅)
  = []
  /\ returned (make_cbar 1%positive 2%positive lit_horizontal (VTuple [VNum 20])
                 true ∅) <> Ok tt.
Proof.
  apply (proj1 (proj2 (proj2 (make_cbar_outcomes 1%positive 2%positive
                                lit_horizontal (VTuple [VNum 20]) true ∅)))).
  intros (a & b & _ & Hb). discriminate Hb.
Defined.

(** X14.  [make_cax_cbar] adds the axes and makes the colorbar before
    anything can fail: whatever the arguments, these are its first two
    calls.  It returns exactly when every keyword is a parameter of
    [edit_cbar] and [tick_dim] has two items, and then ends with
    [set_alpha(1)] and [draw_all()]; when it raises, the new axes stay on the
    figure and neither ticks, label, alpha nor drawing have been touched. *)
Theorem make_cax_cbar_outcomes :
  forall (fig : handle) (rect : pyval) (data : handle) (orientation : pystr)
         (reverse_cbar : bool) (extend : pyval) (kw : gmap string pyval),
    let t := make_cax_cbar fig rect data orientation reverse_cbar extend kw in
    (exists rest,
        calls t = FigAddAxes fig rect :: FigColorbar fig data orientation extend
                    :: rest)
    /\ (returned t = Ok tt <-> edit_cbar_accepts kw /\ has_two (tick_dim_of kw))
    /\ (returned t = Ok tt ->
        exists before, calls t = before ++ [CbarSetAlpha 1; DrawAll])
    /\ (returned t <> Ok tt -> forall c, c ∈ calls t -> ~ finishes c).
Proof.
  intros. subst t.
  pose proof (edit_cbar_kwargs_returns kw) as Hret.
  pose proof (edit_cbar_kwargs_finishes kw) as Hfin.
  unfold make_cax_cbar, mbind, traced_bind, tbind, tlift, emit.
  cbn [calls returned].
  assert (forall c, c ∈ calls (reverse reverse_cbar orientation) -> ~ finishes c)
    as Hrev.
  { intros c. unfold reverse, mret, traced_ret, tret, emit.
    destruct reverse_cbar; [destruct (py_is orientation lit_horizontal)|];
      cbn [calls]; intros Hin Hf;
      repeat (apply elem_of_cons in Hin as [->|Hin]; [exact Hf|]);
      now apply elem_of_nil in Hin. }
  assert (returned (reverse reverse_cbar orientation) = Ok tt) as Hrevok.
  { unfold reverse, mret, traced_ret, tret, emit.
    destruct reverse_cbar; [destruct (py_is orientation lit_horizontal)|];
      reflexivity. }
  rewrite Hrevok. cbn [calls returned].
  destruct (returned (edit_cbar_kwargs kw)) as [[]|e] eqn:Hr;
    cbn [calls returned app].
  - split; [eauto|]. split; [|split].
    + split; [|reflexivity]. intros _. now apply Hret.
    + intros _. destruct Hfin as [before Hbefore]. rewrite Hbefore.
      exists (FigAddAxes fig rect :: FigColorbar fig data orientation extend
                :: calls (reverse reverse_cbar orientation) ++ before).
      cbn [app]. now rewrite <- !app_assoc.
    + intros Hne. now exfalso.
  - split; [eauto|]. split; [|split].
    + split; [discriminate|]. intros Hacc. apply Hret in Hacc. discriminate.
    + discriminate.
    + intros _ c Hin Hf.
      apply elem_of_cons in Hin as [->|Hin]; [exact Hf|].
      apply elem_of_cons in Hin as [->|Hin]; [exact Hf|].
      apply elem_of_app in Hin as [Hin|Hin];
        [now apply (Hrev c) | now apply (Hfin c)].
Qed.

(** ** [random_colors] *)

(** The loop of lines 437-439 appends the first row of every block. *)
Lemma append_rows_fmap (g : ndarray -> ndarray) (cs colors : list ndarray) :
  (forall c, c ∈ cs -> first_row c = Returns (g c)) ->
  append_rows colors cs = Returns (colors ++ (g <$> cs)).
Proof.
  revert colors. induction cs as [|c cs IH]; intros colors Hrows; simpl.
  - now rewrite app_nil_r.
  - rewrite (Hrows c) by apply list_elem_of_here. simpl.
    rewrite IH by (intros c' Hc'; apply Hrows; now apply list_elem_of_further).
    now rewrite <- app_assoc.
Qed.

(** Row [i] of the array of draws. *)
Lemma draws_row (draws : nat -> Q) (n i : nat) :
  (i < n)%nat ->
  take 3 (drop (i * 3) (draws <$> seq 0 (n * 3)))
  = [draws (i * 3)%nat; draws (i * 3 + 1)%nat; draws (i * 3 + 2)%nat].
Proof.
  intros Hi. rewrite <- fmap_drop, <- fmap_take, drop_seq, take_seq.
  replace (Nat.min 3 (n * 3 - i * 3)) with 3%nat by lia.
  cbn [seq fmap list_fmap]. repeat f_equal; lia.
Qed.

(** X12.  For one colour or more, [random_colors] returns exactly that many
    colours, each an array of three components, and colour [i] holds draws
    [3i], [3i + 1] and [3i + 2] of the generator: the rows of the array of
    draws, in order. *)
Theorem random_colors_rows :
  forall (draws : nat -> Q) (number_ofcolors : Z),
    (1 <= number_ofcolors)%Z ->
    exists colors,
      random_colors draws number_ofcolors = Returns colors
      /\ Z.of_nat (length colors) = number_ofcolors
      /\ (forall i : nat,
             (Z.of_nat i < number_ofcolors)%Z ->
             colors !! i
             = Some (NdArray [3%nat]
                       [draws (i * 3)%nat; draws (i * 3 + 1)%nat;
                        draws (i * 3 + 2)%nat])).
Proof.
  intros draws n Hn.
  set (N := Z.to_nat n).
  set (buf := draws <$> seq 0 (N * 3)).
  set (g := fun c : ndarray => NdArray [3%nat] (take 3 (flat c))).
  set (block := fun i : nat => NdArray [1%nat; 3%nat] (take 3 (drop (i * 3) buf))).
  assert (random_colors draws n = Returns (g <$> (block <$> seq 0 N))) as Hrun.
  { unfold random_colors, random_rand, rbind.
    destruct (Z.ltb_spec n 0) as [|_]; [lia|]. fold N. fold buf.
    unfold vsplit. cbn [shape flat].
    destruct (Z.eqb_spec n 0) as [|_]; [lia|].
    replace (Z.of_nat N mod n)%Z with 0%Z
      by (unfold N; rewrite Z2Nat.id by lia; now rewrite Z.mod_same by lia).
    cbn [Z.eqb negb].
    destruct (Z.ltb_spec n 0) as [|_]; [lia|]. fold N.
    replace (N / N)%nat with 1%nat by (symmetry; apply Nat.div_same; lia).
    cbn [foldr Nat.mul]. change (1 * (3 * 1))%nat with 3%nat.
    rewrite (append_rows_fmap g); [reflexivity|].
    intros c Hc. apply list_elem_of_fmap in Hc as (i & -> & _). reflexivity. }
  exists (g <$> (block <$> seq 0 N)). split; [exact Hrun|]. split.
  - rewrite !length_fmap, length_seq. lia.
  - intros i Hi. rewrite !list_lookup_fmap, lookup_seq_lt by lia.
    cbn [fmap option_fmap option_map]. unfold g, block. cbn [flat].
    rewrite take_take, Nat.min_id. unfold buf.
    now rewrite draws_row by lia.
Qed.

Lemma random_colors_rows_witness :
  exists colors,
    random_colors (fun k => inject_Z (Z.of_nat k) / 10)%Q 2 = Returns colors
    /\ Z.of_nat (length colors) = 2%Z
    /\ (forall i : nat,
           (Z.of_nat i < 2)%Z ->
           colors !! i
           = Some (NdArray [3%nat]
                     [(inject_Z (Z.of_nat (i * 3)) / 10)%Q;
                      (inject_Z (Z.of_nat (i * 3 + 1)) / 10)%Q;
                      (inject_Z (Z.of_nat (i * 3 + 2)) / 10)%Q])).
Proof.
  apply (random_colors_rows (fun k => inject_Z (Z.of_nat k) / 10)%Q 2). lia.
Defined.

(** X13.  [random_colors] never returns an empty list: asked for no colour
    it raises [ZeroDivisionError] in [np.vsplit], asked for a negative
    number it raises [ValueError] in [np.random.rand]. *)
Theorem random_colors_none :
  forall (draws : nat -> Q) (number_ofcolors : Z),
    (number_ofcolors <= 0)%Z ->
    random_colors draws number_ofcolors
    = Raises (if (number_ofcolors =? 0)%Z then ZeroDivisionError
              else Builtin ValueError).
Proof.
  intros draws n Hn. unfold random_colors, random_rand, rbind.
  destruct (Z.eqb_spec n 0) as [->|Hne].
  - reflexivity.
  - destruct (Z.ltb_spec n 0) as [|]; [reflexivity | lia].
Qed.

Lemma random_colors_none_witness :
  random_colors (fun _ => 0%Q) 0 = Raises ZeroDivisionError.
Proof. apply (random_colors_none (fun _ => 0%Q) 0). lia. Defined.
